(** * stm32pio.core.settings: the default configuration and its probes

    A shallow embedding of [stm32pio/core/settings.py].  The module is
    executed once, at import time; what it computes depends on the host
    (the platform name, the process environment, the executable search path
    and the filesystem), which is gathered in a [World] record.  Python
    exceptions are explicit ([Raise]), and every filesystem or search-path
    access is recorded in a trace so that statements of the form "this
    location is never consulted" can be made. *)

From Stdlib Require Import Ascii String.
From stdpp Require Import base option list strings gmap.

Open Scope string_scope.
Open Scope list_scope.

(** ** Exceptions and outcomes *)

(** The exceptions that the module can meet.  All of them derive from
    Python's [Exception], so [except Exception] handles each. *)
Inductive exn : Type :=
  | TypeError
  | KeyError
  | RuntimeError
  | PermissionError
  | FileNotFoundError
  | IsADirectoryError.

Inductive outcome (A : Type) : Type :=
  | Ret (a : A)
  | Raise (e : exn).
Arguments Ret {A} a.
Arguments Raise {A} e.

(** What the module asks of the host besides reading the environment. *)
Inductive event : Type :=
  | EWhich (name : string)      (* shutil.which(name) *)
  | EHome                       (* Path.home() *)
  | EExists (p : string)        (* Path.exists() *)
  | EIsDir (p : string)         (* Path.is_dir() *)
  | EAccess (p : string)        (* os.access(p, os.X_OK) *)
  | EReadText (p : string).     (* Path.read_text() *)

(** A computation: the accesses it made, then its value or the exception
    that ended it. *)
Definition M (A : Type) : Type := (list event * outcome A)%type.

Definition trace {A} (m : M A) : list event := fst m.
Definition result {A} (m : M A) : outcome A := snd m.

Definition ret {A} (a : A) : M A := ([], Ret a).
Definition raise {A} (e : exn) : M A := ([], Raise e).
Definition perform {A} (ev : event) (r : outcome A) : M A := ([ev], r).

Definition bind {A B} (m : M A) (k : A → M B) : M B :=
  match m with
  | (t, Ret a) => let '(t', r) := k a in (t ++ t', r)
  | (t, Raise e) => (t, Raise e)
  end.

(** [try: m except Exception: h] *)
Definition try_except {A} (m : M A) (h : M A) : M A :=
  match m with
  | (t, Ret a) => (t, Ret a)
  | (t, Raise _) => let '(t', r) := h in (t ++ t', r)
  end.

Notation "'let*' x ':=' m 'in' k" := (bind m (λ x, k))
  (at level 10, x name, m at level 100, k at level 200).

(** A [for] loop whose body may [return]: the body yields [Some b] when it
    returns [b] from the enclosing function and [None] when the iteration
    ends (also by [continue]). *)
Fixpoint for_return {A B} (xs : list A) (body : A → M (option B)) : M (option B) :=
  match xs with
  | [] => ret None
  | x :: xs' =>
      let* r := body x in
      match r with
      | Some b => ret (Some b)
      | None => for_return xs' body
      end
  end.

(** Truth value of a [str], and of a [str] or [None]. *)
Definition truthy (s : string) : bool :=
  match s with "" => false | _ => true end.

Definition truthy_opt (o : option string) : bool :=
  match o with Some s => truthy s | None => false end.

(** ** pathlib *)

(** The operations of [pathlib.Path] that the module uses.  Which flavour
    [Path] denotes is decided by the host ([PosixPath], or [WindowsPath] on
    Windows); the module's logic does not depend on it, and the statements
    below hold of every flavour unless they name one.  [str] never yields
    the empty string: a path with no component prints as a dot. *)
Class PathFlavour : Type := {
  path : Type;
  Path : string → path;
  joinpath : path → string → path;
  parent : path → path;
  str : path → string;
  str_nonempty : ∀ p, str p ≠ "";
}.

Notation "p // s" := (joinpath p s) (at level 40, left associativity).

(** Python [str] operations used by [pathlib]. *)
Module Py.

(** [s.lstrip(c)] *)
Fixpoint lstrip (c : ascii) (s : string) : string :=
  match s with
  | String a s' => if Ascii.eqb a c then lstrip c s' else s
  | "" => ""
  end.

(** [s.split(c)] *)
Fixpoint split (c : ascii) (s : string) : list string :=
  match s with
  | "" => [""]
  | String a s' =>
      if Ascii.eqb a c then "" :: split c s'
      else
        match split c s' with
        | [] => [String a ""]
        | x :: xs => String a x :: xs
        end
  end.

(** [sep.join(xs)] *)
Fixpoint join (sep : string) (xs : list string) : string :=
  match xs with
  | [] => ""
  | [x] => x
  | x :: xs' => x +:+ sep +:+ join sep xs'
  end.

(** [s.replace(a, b)] for single characters *)
Fixpoint replace (a b : ascii) (s : string) : string :=
  match s with
  | "" => ""
  | String c s' => String (if Ascii.eqb c a then b else c) (replace a b s')
  end.

(** [s[i:]], [s[:i]] and [s[i:j]] *)
Definition from (i : nat) (s : string) : string := substring i (String.length s) s.
Definition upto (i : nat) (s : string) : string := substring 0 i s.
Definition slice (i j : nat) (s : string) : string := substring i (j - i) s.

(** [s.find(pat, start)], with [None] for -1 *)
Definition find (pat : string) (start : nat) (s : string) : option nat :=
  index start pat s.

Definition startswith (pre s : string) : bool := String.prefix pre s.

Definition is_ascii_letter (s : string) : bool :=
  match s with
  | String c "" =>
      let n := nat_of_ascii c in
      (Nat.leb 65 n && Nat.leb n 90) || (Nat.leb 97 n && Nat.leb n 122)
  | _ => false
  end.

Definition lower_char (c : ascii) : ascii :=
  let n := nat_of_ascii c in
  if Nat.leb 65 n && Nat.leb n 90 then ascii_of_nat (n + 32) else c.

(** [s.lower()] on ASCII *)
Fixpoint lower (s : string) : string :=
  match s with
  | "" => ""
  | String c s' => String (lower_char c) (lower s')
  end.

(** A component that [parse_parts] keeps: not empty and not a dot. *)
Definition kept (x : string) : bool :=
  negb (String.eqb x "" || String.eqb x ".").

End Py.

(** *** The POSIX flavour ([PurePosixPath]) *)

(** The two flavours follow [parse_parts], [splitroot], [join_parsed_parts],
    [parent] and [__str__] of CPython's [pathlib] (3.11). *)
Module Posix.

(** The anchor is kept apart from the other components. *)
Record t : Type := mk { root : string; parts : list string }.

(** Two leading slashes are kept, any other number is one. *)
Definition splitroot (part : string) : string * string :=
  match part with
  | String "/"%char _ =>
      let stripped_part := Py.lstrip "/" part in
      (if Nat.eqb (String.length part - String.length stripped_part) 2
       then "//" else "/", stripped_part)
  | _ => ("", part)
  end.

Definition parse (s : string) : t :=
  let '(r, rel) := splitroot s in
  mk r (List.filter Py.kept (Py.split "/" rel)).

Definition format (p : t) : string := root p +:+ Py.join "/" (parts p).

(** [str(p)]: the formatted parts, [or '.'] *)
Definition to_str (p : t) : string :=
  if truthy (format p) then format p else ".".

(** [p / s]: a rooted right operand replaces the left one. *)
Definition join (p : t) (s : string) : t :=
  let q := parse s in
  if truthy (root q) then q else mk (root p) (parts p ++ parts q).

(** [p.parent]: the anchor (and the empty path) is its own parent. *)
Definition parent_of (p : t) : t :=
  match parts p with
  | [] => p
  | _ => mk (root p) (removelast (parts p))
  end.

Lemma posix_str_nonempty p : to_str p ≠ "".
Proof. unfold to_str. by destruct (format p). Qed.

End Posix.

#[global] Instance posix : PathFlavour := {|
  path := Posix.t;
  Path := Posix.parse;
  joinpath := Posix.join;
  parent := Posix.parent_of;
  str := Posix.to_str;
  str_nonempty := Posix.posix_str_nonempty;
|}.

(** *** The Windows flavour ([PureWindowsPath]) *)
Module Windows.

Definition sep : string := "\".

Record t : Type := mk { drv : string; root : string; parts : list string }.

(** The extended-path prefix [\\?\], with [UNC\] folded into it. *)
Definition split_extended_path (s : string) : string * string :=
  if Py.startswith "\\?\" s then
    let prefix := Py.upto 4 s in
    let s := Py.from 4 s in
    if Py.startswith "UNC\" s then (prefix +:+ Py.upto 3 s, sep +:+ Py.from 3 s)
    else (prefix, s)
  else ("", s).

(** The drive of a UNC path [\\machine\mountpoint\...], when [part] is one. *)
Definition unc_root (prefix part : string) : option (string * string * string) :=
  match Py.find sep 2 part with
  | Some index =>
      let index2 := Py.find sep (index + 1) part in
      if bool_decide (index2 = Some (index + 1)) then None
      else
        let index2 := default (String.length part) index2 in
        Some (if truthy prefix then prefix +:+ Py.slice 1 index2 part
              else Py.upto index2 part,
              sep, Py.from (index2 + 1) part)
  | None => None
  end.

Definition splitroot (part : string) : string * string * string :=
  let first := Py.slice 0 1 part in
  let second := Py.slice 1 2 part in
  let '(prefix, part) :=
    if String.eqb second sep && String.eqb first sep
    then split_extended_path part else ("", part) in
  let first := Py.slice 0 1 part in
  let second := Py.slice 1 2 part in
  let third := Py.slice 2 3 part in
  let unc :=
    if String.eqb second sep && String.eqb first sep && negb (String.eqb third sep)
    then unc_root prefix part else None in
  match unc with
  | Some r => r
  | None =>
      let '(drv, part, first) :=
        if String.eqb second ":" && Py.is_ascii_letter first
        then (Py.upto 2 part, Py.from 2 part, third) else ("", part, first) in
      let '(root, part) :=
        if String.eqb first sep then (first, Py.lstrip "\" part) else ("", part) in
      (prefix +:+ drv, root, part)
  end.

Definition parse (s : string) : t :=
  let '(d, r, rel) := splitroot (Py.replace "/" "\" s) in
  mk d r (List.filter Py.kept (Py.split "\" rel)).

Definition format (p : t) : string := drv p +:+ root p +:+ Py.join sep (parts p).

Definition to_str (p : t) : string :=
  if truthy (format p) then format p else ".".

(** [join_parsed_parts] *)
Definition join (p : t) (s : string) : t :=
  let q := parse s in
  if truthy (root q) then
    if negb (truthy (drv q)) && truthy (drv p) then mk (drv p) (root q) (parts q)
    else q
  else if truthy (drv q) then
    if String.eqb (drv q) (drv p) || String.eqb (Py.lower (drv q)) (Py.lower (drv p))
    then mk (drv p) (root p) (parts p ++ parts q)
    else q
  else mk (drv p) (root p) (parts p ++ parts q).

Definition parent_of (p : t) : t :=
  match parts p with
  | [] => p
  | _ => mk (drv p) (root p) (removelast (parts p))
  end.

Lemma windows_str_nonempty p : to_str p ≠ "".
Proof. unfold to_str. by destruct (format p). Qed.

End Windows.

Definition windows : PathFlavour := {|
  path := Windows.t;
  Path := Windows.parse;
  joinpath := Windows.join;
  parent := Windows.parent_of;
  str := Windows.to_str;
  str_nonempty := Windows.windows_str_nonempty;
|}.

(** ** The host *)

Record World : Type := {
  my_os : string;                        (* platform.system() *)
  environ : gmap string string;          (* os.environ *)
  module_file : string;                  (* __file__ *)
  home : outcome string;                 (* Path.home() *)
  which : string → option string;        (* shutil.which *)
  exists_at : string → outcome bool;     (* Path.exists() *)
  is_dir_at : string → outcome bool;     (* Path.is_dir() *)
  access_x : string → outcome bool;      (* os.access(_, os.X_OK) *)
  text_at : string → outcome string;     (* Path.read_text() *)
}.

(** [os.environ.get(v, d)] *)
Definition environ_get (w : World) (v d : string) : string :=
  default d (environ w !! v).

(** [a == b] on [str] *)
Definition str_eq (a b : string) : bool := String.eqb a b.

Definition LF : string := String "010"%char "".

(** ** Configuration values *)

Inductive value : Type :=
  | VStr (s : string)
  | VBool (b : bool).

(** [config_default]: a dict of the two dicts ['app'] and ['project']. *)
Record config : Type := {
  app : gmap string string;
  project : gmap string value;
}.

Section Settings.

Context `{F : PathFlavour}.
Variable w : World.

(** *** Host accesses *)

Definition shutil_which (name : string) : M (option string) :=
  perform (EWhich name) (Ret (which w name)).

Definition Path_home : M path :=
  let* h := perform EHome (home w) in ret (Path h).

Definition exists_ (p : path) : M bool :=
  perform (EExists (str p)) (exists_at w (str p)).

Definition is_dir (p : path) : M bool :=
  perform (EIsDir (str p)) (is_dir_at w (str p)).

Definition os_access_X_OK (s : string) : M bool :=
  perform (EAccess s) (access_x w s).

Definition read_text (p : path) : M string :=
  perform (EReadText (str p)) (text_at w (str p)).

(** *** [_find_cubemx_executable] *)

Definition env_vars : list string :=
  [ "STM32CUBEMX_HOME"; "STM32_CUBEMX_HOME"; "STM32_CUBEMX"; "STM32CUBEMX";
    "STM32_CUBEMX_PATH"; "STM32CUBEMX_PATH" ].

(** The names tried inside a directory that a variable points to. *)
Definition candidates_in (p : path) : list path :=
  [ p // "STM32CubeMX";
    p // "STM32CubeMX.exe";
    p // "STM32CubeMX.app" // "Contents" // "MacOS" // "STM32CubeMX" ].

(** Body of the loop over [env_vars]: one variable. *)
Definition probe_env_var (v : string) : M (option string) :=
  match environ w !! v with
  | None => ret None
  | Some val =>
      if negb (truthy val) then ret None
      else
        let p := Path val in
        let* e := exists_ p in
        if e then
          let* d := is_dir p in
          if d then
            for_return (candidates_in p)
              (λ c, let* ec := exists_ c in ret (if ec then Some (str c) else None))
          else ret (Some (str p))
        else ret None
  end.

(** The conventional install locations of each operating system. *)
Definition common_locations : M (list path) :=
  if str_eq (my_os w) "Windows" then
    ret [ Path "C:/Program Files/STMicroelectronics/STM32Cube/STM32CubeMX/STM32CubeMX.exe";
          Path "C:/Program Files (x86)/STMicroelectronics/STM32Cube/STM32CubeMX/STM32CubeMX.exe";
          Path "C:/Program Files/STMicroelectronics/STM32CubeMX/STM32CubeMX.exe";
          Path (environ_get w "LOCALAPPDATA" "") // "Programs" // "STM32CubeMX" // "STM32CubeMX.exe" ]
  else if str_eq (my_os w) "Darwin" then
    ret [ Path "/Applications/STMicroelectronics/STM32CubeMX.app/Contents/MacOS/STM32CubeMX" ]
  else if str_eq (my_os w) "Linux" then
    let* h := Path_home in
    ret [ h // "STM32CubeMX" // "STM32CubeMX";
          Path "/usr/local/bin/STM32CubeMX";
          Path "/usr/bin/STM32CubeMX" ]
  else ret [].

(** Body of the loop over the conventional locations; a [Path] object is
    always true, so [p and p.exists()] is [p.exists()]. *)
Definition probe_common (p : path) : M (option string) :=
  try_except
    (let* e := exists_ p in ret (if e then Some (str p) else None))
    (ret None).

Definition search_path_stage : M (option string) :=
  let exec_name :=
    if str_eq (my_os w) "Windows" then "STM32CubeMX.exe" else "STM32CubeMX" in
  let* a := shutil_which exec_name in
  if truthy_opt a then ret a else shutil_which "STM32CubeMX".

Definition common_stage : M string :=
  let* common := common_locations in
  let* r := for_return common probe_common in
  ret (default "" r).

Definition _find_cubemx_executable : M string :=
  let* r := for_return env_vars probe_env_var in
  match r with
  | Some s => ret s
  | None =>
      let* which_path := search_path_stage in
      if truthy_opt which_path then ret (default "" which_path)
      else common_stage
  end.

(** *** [_find_java_bundled_with_cubemx] *)

Definition java_candidates (cubemx_path : string) : list path :=
  let p := Path cubemx_path in
  let install_dir := parent p in
  let java := if str_eq (my_os w) "Windows" then "java.exe" else "java" in
  [ install_dir // "jre" // "bin" // java;
    parent install_dir // "jre" // "bin" // java;
    parent p // "jre" // "bin" // "java" ].

Definition probe_java (c : path) : M (option string) :=
  try_except
    (let* e := exists_ c in
     if e then
       let* x := os_access_X_OK (str c) in
       ret (if x then Some (str c) else None)
     else ret None)
    (ret None).

Definition _find_java_bundled_with_cubemx (cubemx_path : string) : M string :=
  if negb (truthy cubemx_path) then ret ""
  else
    let* r := for_return (java_candidates cubemx_path) probe_java in
    ret (default "" r).

(** *** Module level: detection with fallbacks *)

(** [_detected_cubemx]: the located executable, or the previous default
    of the platform. *)
Definition _detected_cubemx : M string :=
  let* found := _find_cubemx_executable in
  if negb (truthy found) then
    if str_eq (my_os w) "Darwin" then
      ret "/Applications/STMicroelectronics/STM32CubeMX.app/Contents/MacOs/STM32CubeMX"
    else if str_eq (my_os w) "Linux" then
      let* h := Path_home in ret (str (h // "STM32CubeMX/STM32CubeMX"))
    else if str_eq (my_os w) "Windows" then
      ret "C:/Program Files/STMicroelectronics/STM32Cube/STM32CubeMX/STM32CubeMX.exe"
    else ret ""
  else ret found.

Definition _detected_java (cubemx : string) : M string :=
  let* found := _find_java_bundled_with_cubemx cubemx in
  if negb (truthy found) then
    ret (if str_eq (my_os w) "Windows"
         then "C:/Program Files/STMicroelectronics/STM32Cube/STM32CubeMX/jre/bin/java.exe"
         else "None")
  else ret found.

(** *** [config_default] as first assigned *)

Definition cubemx_script_content : string :=
  "config load ${ioc_file_absolute_path}" +:+ LF +:+
  "generate code ${project_dir_absolute_path}" +:+ LF +:+
  "exit".

Definition platformio_ini_patch_content : string :=
  "[platformio]" +:+ LF +:+
  "include_dir = Inc" +:+ LF +:+
  "src_dir = Src".

Definition default_project : gmap string value :=
  <["cubemx_script_content" := VStr cubemx_script_content]>
  (<["platformio_ini_patch_content" := VStr platformio_ini_patch_content]>
  (<["board" := VStr ""]>
  (<["ioc_file" := VStr ""]>
  (<["cleanup_ignore" := VStr ""]>
  (<["cleanup_use_git" := VBool false]>
  (<["inspect_ioc" := VBool true]> ∅)))))).

Definition default_app (cubemx java : string) : gmap string string :=
  <["platformio_cmd" := "platformio"]>
  (<["cubemx_cmd" := cubemx]>
  (<["java_cmd" := java]> ∅)).

Definition config_default : M config :=
  let* cubemx := _detected_cubemx in
  let* java := _detected_java cubemx in
  ret {| app := default_app cubemx java; project := default_project |}.

(** *** The continuous-integration part *)

(** [Path(os.environ.get(v))]: [Path(None)] is a [TypeError]. *)
Definition Path_of_environ (v : string) : M path :=
  match environ w !! v with
  | Some s => ret (Path s)
  | None => raise TypeError
  end.

Definition ci_app (cache : path) : gmap string string :=
  <["platformio_cmd" := "platformio"]>
  (<["cubemx_cmd" := str (cache // "STM32CubeMX.exe")]>
  (<["java_cmd" := "java"]> ∅)).

(** [Path(os.environ.get('STM32PIO_TEST_FIXTURES', default=...))]; it is
    a [Path] object in either case, never [None]. *)
Definition TEST_FIXTURES_PATH : path :=
  match environ w !! "STM32PIO_TEST_FIXTURES" with
  | Some s => Path s
  | None => parent (Path (module_file w)) // "../../tests/fixtures"
  end.

Definition TEST_CASE : option string := environ w !! "STM32PIO_TEST_CASE".

Definition platformio_ini_lockfile (test_case : string) : path :=
  TEST_FIXTURES_PATH // test_case // "platformio.ini.lockfile".

(** [patch_mixin]; of the two tests [is not None], the one of
    [TEST_FIXTURES_PATH] always holds. *)
Definition patch_mixin : M string :=
  match TEST_CASE with
  | Some test_case =>
      let lockfile := platformio_ini_lockfile test_case in
      let* e := exists_ lockfile in
      if e then
        let* text := read_text lockfile in ret (LF +:+ LF +:+ text)
      else ret ""
  | None => ret ""
  end.

(** [d['platformio_ini_patch_content'] += mixin] *)
Definition append_patch (d : gmap string value) (mixin : string) : M (gmap string value) :=
  match d !! "platformio_ini_patch_content" with
  | None => raise KeyError
  | Some (VStr s) => ret (<["platformio_ini_patch_content" := VStr (s +:+ mixin)]> d)
  | Some (VBool _) => raise TypeError
  end.

Definition CI_ENV_VARIABLE : option string := environ w !! "PIPELINE_WORKSPACE".

(** The block guarded by [CI_ENV_VARIABLE is not None], run on the
    configuration built so far. *)
Definition ci_override (cfg : config) : M config :=
  match CI_ENV_VARIABLE with
  | None => ret cfg
  | Some _ =>
      let* cache := Path_of_environ "STM32PIO_CUBEMX_CACHE_FOLDER" in
      let cfg1 := {| app := ci_app cache; project := project cfg |} in
      let* mixin := patch_mixin in
      let* proj := append_patch (project cfg1) mixin in
      ret {| app := app cfg1; project := proj |}
  end.

(** The whole module: the value of [config_default] once it is loaded. *)
Definition settings : M config :=
  let* cfg := config_default in
  ci_override cfg.

End Settings.

(** ** Hosts to run the module on *)

Module Hosts.

Definition mem (p : string) (ps : list string) : bool :=
  existsb (String.eqb p) ps.

(** A host whose probes all answer: the listed files and directories
    exist, the files are executable and hold [text], nothing is on the
    search path and the home directory is known. *)
Definition quiet (os : string) (env : gmap string string)
    (files dirs : list string) (text : string) : World := {|
  my_os := os;
  environ := env;
  module_file := "/opt/stm32pio/stm32pio/core/settings.py";
  home := Ret "/home/dev";
  which := λ _, None;
  exists_at := λ p, Ret (mem p files || mem p dirs);
  is_dir_at := λ p, Ret (mem p dirs);
  access_x := λ p, Ret (mem p files);
  text_at := λ p,
    if mem p files then Ret text
    else if mem p dirs then Raise IsADirectoryError
    else Raise FileNotFoundError;
|}.

(** The same host, on which looking at [denied] is refused. *)
Definition guarded (denied : string) (w : World) : World := {|
  my_os := my_os w;
  environ := environ w;
  module_file := module_file w;
  home := home w;
  which := which w;
  exists_at := λ p, if String.eqb p denied then Raise PermissionError else exists_at w p;
  is_dir_at := λ p, if String.eqb p denied then Raise PermissionError else is_dir_at w p;
  access_x := access_x w;
  text_at := λ p, if String.eqb p denied then Raise PermissionError else text_at w p;
|}.

(** The same host with one variable removed from the environment.  The
    search path and the home directory are left as they are: this is the
    host for a variable that neither [shutil.which] nor [Path.home()]
    reads, such as the variables that the module reads itself. *)
Definition unset (v : string) (w : World) : World := {|
  my_os := my_os w;
  environ := delete v (environ w);
  module_file := module_file w;
  home := home w;
  which := which w;
  exists_at := exists_at w;
  is_dir_at := is_dir_at w;
  access_x := access_x w;
  text_at := text_at w;
|}.

End Hosts.

(** A generator installed under [/opt/st/cubemx], named by the third and
    by the last of the candidate variables. *)
Definition host_c3 : World :=
  Hosts.quiet "Linux"
    {[ "STM32_CUBEMX" := "/opt/st/cubemx/STM32CubeMX";
       "STM32CUBEMX_PATH" := "/usr/bin/STM32CubeMX" ]}
    [ "/opt/st/cubemx/STM32CubeMX"; "/usr/bin/STM32CubeMX" ] [ "/opt/st/cubemx" ] "".

(** The first variable names an empty directory, a later one the
    installation directory. *)
Definition host_c10 : World :=
  Hosts.quiet "Linux"
    {[ "STM32CUBEMX_HOME" := "/opt/st/empty";
       "STM32CUBEMX" := "/opt/st/cubemx" ]}
    [ "/opt/st/cubemx/STM32CubeMX" ] [ "/opt/st/empty"; "/opt/st/cubemx" ] "".

(** The runtime sits one level above the installation directory; looking
    at the first candidate is refused. *)
Definition host_c9 : World :=
  Hosts.guarded "/opt/st/cubemx/jre/bin/java"
    (Hosts.quiet "Linux" ∅
       [ "/opt/st/cubemx/STM32CubeMX"; "/opt/st/jre/bin/java" ]
       [ "/opt/st/cubemx"; "/opt/st/jre/bin" ] "").

(** Nothing installed, nothing set. *)
Definition host_bare (os : string) : World := Hosts.quiet os ∅ [] [] "".

(** A continuous-integration agent. *)
Definition ci_environ : gmap string string :=
  {[ "PIPELINE_WORKSPACE" := "/home/vsts/work/1";
     "STM32PIO_CUBEMX_CACHE_FOLDER" := "/cache" ]}.

Definition host_ci : World := Hosts.quiet "Linux" ci_environ [] [] "".

Definition host_ci_windows : World := Hosts.quiet "Windows" ci_environ [] [] "".

(** An agent on which the fixtures root is left unset, so that the default
    next to the module is used, and the lock file of the test case is
    there. *)
Definition fixture_lockfile : string :=
  "/opt/stm32pio/stm32pio/core/../../tests/fixtures/nucleo_f031k6/platformio.ini.lockfile".

Definition host_ci_fixture : World :=
  Hosts.quiet "Linux"
    (<["STM32PIO_TEST_CASE" := "nucleo_f031k6"]> ci_environ)
    [ fixture_lockfile ] [] "[env:nucleo_f031k6]".

(** An agent without the cache-folder variable. *)
Definition host_ci_no_cache : World :=
  Hosts.quiet "Linux" {[ "PIPELINE_WORKSPACE" := "/home/vsts/work/1" ]} [] [] "".

(** A variable points into [/root], which the user may not search:
    [stat] of the path is refused. *)
Definition host_denied : World :=
  Hosts.guarded "/root/cubemx"
    (Hosts.quiet "Linux" {[ "STM32CUBEMX_HOME" := "/root/cubemx" ]}
       [ "/usr/bin/STM32CubeMX" ] [] "").

(** The same refusal at a conventional location. *)
Definition host_denied_common : World :=
  Hosts.guarded "/home/dev/STM32CubeMX/STM32CubeMX"
    (Hosts.quiet "Linux" ∅ [ "/usr/bin/STM32CubeMX" ] [] "").

(** A configuration other than the default one. *)
Definition some_config : config := {|
  app := {[ "cubemx_cmd" := "/opt/st/cubemx/STM32CubeMX"; "editor" := "vi" ]};
  project := <["board" := VStr "nucleo_f031k6"]> default_project;
|}.

(** ** Notions used in the statements *)

(** A candidate that exists and may be executed; a probe that raises counts
    as a candidate that is not there. *)
Definition usable (w : World) (c : string) : bool :=
  match exists_at w c, access_x w c with
  | Ret true, Ret true => true
  | _, _ => false
  end.

(** The operating-system families the module knows. *)
Definition supported_os : list string := ["Windows"; "Darwin"; "Linux"].

(** A conventional location that is there; a probe that raises counts as
    a location that is not there. *)
Definition present (w : World) (p : string) : bool :=
  match exists_at w p with
  | Ret true => true
  | _ => false
  end.

(** The name looked up first on the search path. *)
Definition exec_name (w : World) : string :=
  if str_eq (my_os w) "Windows" then "STM32CubeMX.exe" else "STM32CubeMX".

(** ** Values to match user input with *)

Definition none_options : list string := ["none"; "no"; "null"; "0"].
Definition no_options : list string := ["n"; "no"; "false"; "0"].
Definition yes_options : list string := ["y"; "yes"; "true"; "1"].

(** ** pathlib on examples *)

Example posix_join_cache :
  str (Path "/cache" // "STM32CubeMX.exe") = "/cache/STM32CubeMX.exe".
Proof. reflexivity. Qed.

Example posix_examples :
  str (Path "") = "." ∧ str (Path "/opt//st/./cubemx/") = "/opt/st/cubemx"
  ∧ str (parent (Path "/a/b")) = "/a" ∧ str (parent (Path "/")) = "/"
  ∧ str (parent (Path "a")) = "." ∧ str (Path "//net/x") = "//net/x"
  ∧ str (Path "///x") = "/x" ∧ str (Path "a" // "/b") = "/b"
  ∧ str (Path "/m/core" // "../../tests/fixtures") = "/m/core/../../tests/fixtures".
Proof. repeat split; reflexivity. Qed.

Example windows_examples :
  let P := @Path windows in
  let join := @joinpath windows in
  @str windows (join (P "/cache") "STM32CubeMX.exe") = "\cache\STM32CubeMX.exe"
  ∧ @str windows (P "C:/Program Files/STMicroelectronics/STM32CubeMX.exe")
    = "C:\Program Files\STMicroelectronics\STM32CubeMX.exe"
  ∧ @str windows (join (join (P "") "Programs") "STM32CubeMX") = "Programs\STM32CubeMX"
  ∧ @str windows (@parent windows (P "c:\x")) = "c:\"
  ∧ @str windows (join (P "C:\a") "c:b") = "C:\a\b"
  ∧ @str windows (join (P "//srv/share/dir") "/f") = "\\srv\share\f".
Proof. repeat split; reflexivity. Qed.

(** ** Laws of computations *)

Lemma append_empty_r (s : string) : s +:+ "" = s.
Proof.
  induction s as [|c s IH]; [done|].
  change (String c (s +:+ "") = String c s). by rewrite IH.
Qed.

Arguments bind : simpl never.
Arguments try_except : simpl never.
Arguments for_return : simpl never.

Section Laws.

Context {A B : Type}.

Lemma result_bind (m : M A) (k : A → M B) :
  result (bind m k) =
  match result m with Ret a => result (k a) | Raise e => Raise e end.
Proof.
  unfold bind. destruct m as [t [a|e]]; simpl; [|done]. by destruct (k a).
Qed.

Lemma trace_bind (m : M A) (k : A → M B) :
  trace (bind m k) =
  trace m ++ match result m with Ret a => trace (k a) | Raise _ => [] end.
Proof.
  unfold bind. destruct m as [t [a|e]]; simpl; [|by rewrite app_nil_r].
  by destruct (k a).
Qed.

Lemma bind_ret_l (a : A) (k : A → M B) : bind (ret a) k = k a.
Proof. unfold bind, ret. by destruct (k a). Qed.

Lemma result_try_except (m h : M A) :
  result (try_except m h) =
  match result m with Ret a => Ret a | Raise _ => result h end.
Proof.
  unfold try_except. destruct m as [t [a|e]]; simpl; [done|]. by destruct h.
Qed.

End Laws.

Section LoopLaws.

Context {A B : Type}.

Lemma for_return_cons (body : A → M (option B)) (x : A) (xs : list A) :
  for_return (x :: xs) body =
  let* r := body x in
  match r with Some b => ret (Some b) | None => for_return xs body end.
Proof. reflexivity. Qed.

(** Iterations that end without returning leave the loop where it was. *)
Lemma for_return_skip (body : A → M (option B)) (xs ys : list A) :
  Forall (λ x, result (body x) = Ret None) xs →
  result (for_return (xs ++ ys) body) = result (for_return ys body)
  ∧ trace (for_return (xs ++ ys) body) =
    flat_map (λ x, trace (body x)) xs ++ trace (for_return ys body).
Proof.
  induction 1 as [|x xs Hx _ [IHr IHt]]; [done|].
  rewrite <- app_comm_cons, for_return_cons, result_bind, trace_bind, Hx.
  simpl. by rewrite IHr, IHt, app_assoc.
Qed.

(** The first iteration that returns ends the loop. *)
Lemma for_return_hit (body : A → M (option B)) (x : A) (xs : list A) (b : B) :
  result (body x) = Ret (Some b) →
  result (for_return (x :: xs) body) = Ret (Some b)
  ∧ trace (for_return (x :: xs) body) = trace (body x).
Proof.
  intros Hx. rewrite for_return_cons, result_bind, trace_bind, Hx. simpl.
  by rewrite app_nil_r.
Qed.

(** The result of a loop depends on the results of its iterations only. *)
Lemma for_return_result_ext (body1 body2 : A → M (option B)) (xs : list A) :
  Forall (λ x, result (body1 x) = result (body2 x)) xs →
  result (for_return xs body1) = result (for_return xs body2).
Proof.
  induction 1 as [|x xs Hx _ IH]; [done|].
  rewrite !for_return_cons, !result_bind, Hx.
  destruct (result (body2 x)) as [[b|]|e]; done.
Qed.

(** A loop whose iterations never raise returns at the first hit. *)
Lemma for_return_find (body : A → M (option B)) (hit : A → bool) (g : A → B)
    (xs : list A) :
  Forall (λ x, result (body x) = Ret (if hit x then Some (g x) else None)) xs →
  result (for_return xs body) = Ret (g <$> List.find hit xs).
Proof.
  induction 1 as [|x xs Hx _ IH]; [done|].
  rewrite for_return_cons, result_bind, Hx. simpl. by destruct (hit x).
Qed.

(** An iteration that raises ends the loop, and the function, with its
    exception. *)
Lemma for_return_raise (body : A → M (option B)) (x : A) (xs : list A) (e : exn) :
  result (body x) = Raise e →
  result (for_return (x :: xs) body) = Raise e.
Proof. intros Hx. by rewrite for_return_cons, result_bind, Hx. Qed.

(** A loop that returns does so in one of its iterations. *)
Lemma for_return_some_inv (body : A → M (option B)) (xs : list A) (b : B) :
  result (for_return xs body) = Ret (Some b) →
  ∃ x, x ∈ xs ∧ result (body x) = Ret (Some b).
Proof.
  induction xs as [|x xs IH]; [done|].
  rewrite for_return_cons, result_bind.
  destruct (result (body x)) as [[b'|]|e] eqn:Hx; [|intros Hr|done].
  - intros [= ->]. exists x. split; [left|done].
  - destruct (IH Hr) as (y & Hin & Hy). exists y. split; [by right|done].
Qed.

End LoopLaws.

(** ** The executable locator *)

Section Locator.

Context `{F : PathFlavour}.
Variable w : World.

(** Outcomes of one variable of the loop. *)

Lemma probe_env_var_unset v :
  environ w !! v = None → probe_env_var w v = ret None.
Proof. unfold probe_env_var. by intros ->. Qed.

Lemma probe_env_var_file v val :
  environ w !! v = Some val → val ≠ "" →
  exists_at w (str (Path val)) = Ret true →
  is_dir_at w (str (Path val)) = Ret false →
  probe_env_var w v =
    ([EExists (str (Path val)); EIsDir (str (Path val))],
     Ret (Some (str (Path val)))).
Proof.
  intros Hv Hval He Hd. unfold probe_env_var. rewrite Hv.
  destruct val as [|c val]; [done|]. simpl.
  unfold exists_, is_dir, perform, bind. by rewrite He, Hd.
Qed.

Lemma probe_env_var_empty_dir v val :
  environ w !! v = Some val → val ≠ "" →
  exists_at w (str (Path val)) = Ret true →
  is_dir_at w (str (Path val)) = Ret true →
  Forall (λ c, exists_at w (str c) = Ret false) (candidates_in (Path val)) →
  result (probe_env_var w v) = Ret None.
Proof.
  intros Hv Hval He Hd Hc. unfold probe_env_var. rewrite Hv.
  destruct val as [|c val]; [done|]. simpl.
  rewrite result_bind. unfold exists_ at 1. simpl. rewrite He.
  rewrite result_bind. unfold is_dir. simpl. rewrite Hd.
  erewrite for_return_find with (hit := λ _, false) (g := str); [done|].
  eapply Forall_impl; [exact Hc|]. intros p Hp. simpl in Hp.
  rewrite result_bind. unfold exists_. simpl. by rewrite Hp.
Qed.

(** The variables' stage only looks at paths: it neither consults the
    search path nor asks for the home directory. *)
Lemma probe_env_var_trace v ev :
  ev ∈ trace (probe_env_var w v) → ∃ p, ev = EExists p ∨ ev = EIsDir p.
Proof.
  unfold probe_env_var, candidates_in, for_return, exists_, is_dir, perform, bind, ret.
  intros Hev.
  repeat (case_match; simplify_eq; simpl in * );
    repeat (apply elem_of_cons in Hev as [->|Hev]; [eauto|]);
    by apply elem_of_nil in Hev.
Qed.

(** The first variable, in the order of [env_vars], whose iteration
    returns decides the locator, and nothing after it is run. *)
Lemma find_cubemx_first_env_result before v after s :
  env_vars = before ++ v :: after →
  Forall (λ u, result (probe_env_var w u) = Ret None) before →
  result (probe_env_var w v) = Ret (Some s) →
  result (_find_cubemx_executable w) = Ret s
  ∧ trace (_find_cubemx_executable w) =
    flat_map (λ u, trace (probe_env_var w u)) (before ++ [v]).
Proof.
  intros Hvars Hbefore Hv. unfold _find_cubemx_executable. rewrite Hvars.
  destruct (for_return_skip (probe_env_var w) before (v :: after) Hbefore)
    as [Hr Ht].
  destruct (for_return_hit (probe_env_var w) v after s Hv) as [Hr' Ht'].
  rewrite result_bind, trace_bind, Hr, Hr', Ht, Ht'. simpl.
  split; [done|]. rewrite flat_map_app. simpl. by rewrite !app_nil_r.
Qed.

(** Nothing in the loop over [env_vars] handles an exception of its
    probes. *)
Lemma probe_env_var_exists_raises v val e :
  environ w !! v = Some val → val ≠ "" →
  exists_at w (str (Path val)) = Raise e →
  result (probe_env_var w v) = Raise e.
Proof.
  intros Hv Hval He. unfold probe_env_var. rewrite Hv.
  destruct val as [|c val]; [done|]. simpl.
  rewrite result_bind. unfold exists_. simpl. by rewrite He.
Qed.

Lemma find_cubemx_env_raises before v after e :
  env_vars = before ++ v :: after →
  Forall (λ u, result (probe_env_var w u) = Ret None) before →
  result (probe_env_var w v) = Raise e →
  result (_find_cubemx_executable w) = Raise e.
Proof.
  intros Hvars Hbefore Hv. unfold _find_cubemx_executable. rewrite Hvars.
  destruct (for_return_skip (probe_env_var w) before (v :: after) Hbefore)
    as [Hr _].
  by rewrite result_bind, Hr, (for_return_raise _ _ _ e Hv).
Qed.

End Locator.

(** ** Statements about the executable locator *)

(** C3.  Among the candidate variables, the first one in the order of
    [env_vars] whose iteration returns decides the locator.  In particular
    a variable that is set to a non-empty value naming an existing file
    that is not a directory makes the locator return that path, as
    [pathlib] prints it, when no variable before it produced a result.  The
    accesses made are those of the variables up to this one: the search path
    is not consulted, the home directory is not asked for and no
    conventional location is probed. *)
Theorem find_cubemx_env_file_wins `{F : PathFlavour} (w : World)
    (before after : list string) (v : string) :
  env_vars = before ++ v :: after →
  Forall (λ u, result (probe_env_var w u) = Ret None) before →
  (∀ s, result (probe_env_var w v) = Ret (Some s) →
        result (_find_cubemx_executable w) = Ret s)
  ∧ (∀ val,
       environ w !! v = Some val →
       val ≠ "" →
       exists_at w (str (Path val)) = Ret true →
       is_dir_at w (str (Path val)) = Ret false →
       result (_find_cubemx_executable w) = Ret (str (Path val))
       ∧ trace (_find_cubemx_executable w) =
         flat_map (λ u, trace (probe_env_var w u)) before
         ++ [EExists (str (Path val)); EIsDir (str (Path val))]
       ∧ (∀ name, EWhich name ∉ trace (_find_cubemx_executable w))
       ∧ EHome ∉ trace (_find_cubemx_executable w)).
Proof.
  intros Hvars Hbefore. split.
  { intros s Hs.
    by destruct (find_cubemx_first_env_result w before v after s Hvars Hbefore Hs). }
  intros val Hv Hval He Hd.
  pose proof (probe_env_var_file w v val Hv Hval He Hd) as Hprobe.
  destruct (find_cubemx_first_env_result w before v after (str (Path val))
              Hvars Hbefore) as [Hr Ht]; [by rewrite Hprobe|].
  assert (Hshape : ∀ ev, ev ∈ trace (_find_cubemx_executable w) →
                         ∃ p, ev = EExists p ∨ ev = EIsDir p).
  { intros ev. rewrite Ht. rewrite list_elem_of_In, in_flat_map.
    intros (u & _ & Hin). apply (probe_env_var_trace w u).
    by apply list_elem_of_In. }
  split; [done|]. split.
  - rewrite Ht, flat_map_app. simpl. by rewrite Hprobe, app_nil_r.
  - split.
    + intros name Hin. by destruct (Hshape _ Hin) as [p [?|?]].
    + intros Hin. by destruct (Hshape _ Hin) as [p [?|?]].
Qed.

Lemma find_cubemx_env_file_wins_witness :
  result (_find_cubemx_executable host_c3) = Ret "/opt/st/cubemx/STM32CubeMX"
  ∧ trace (_find_cubemx_executable host_c3) =
    [EExists "/opt/st/cubemx/STM32CubeMX"; EIsDir "/opt/st/cubemx/STM32CubeMX"].
Proof.
  destruct (find_cubemx_env_file_wins host_c3
              ["STM32CUBEMX_HOME"; "STM32_CUBEMX_HOME"]
              ["STM32CUBEMX"; "STM32_CUBEMX_PATH"; "STM32CUBEMX_PATH"]
              "STM32_CUBEMX") as [_ Hfile].
  - reflexivity.
  - repeat constructor.
  - destruct (Hfile "/opt/st/cubemx/STM32CubeMX") as (Hr & Ht & _).
    + reflexivity.
    + discriminate.
    + reflexivity.
    + reflexivity.
    + split; [exact Hr | exact Ht].
Defined.

Section Unset.

Context `{F : PathFlavour}.
Variable w : World.

Lemma LOCALAPPDATA_not_candidate : "LOCALAPPDATA" ∉ env_vars.
Proof. by apply (bool_decide_unpack _). Qed.

Lemma probe_env_var_unset_other v u :
  u ≠ v → probe_env_var (Hosts.unset v w) u = probe_env_var w u.
Proof.
  intros Hne. unfold probe_env_var. simpl. by rewrite lookup_delete_ne.
Qed.

Lemma probe_env_var_unset_same v :
  probe_env_var (Hosts.unset v w) v = ret None.
Proof. apply probe_env_var_unset. simpl. apply lookup_delete_eq. Qed.

(** The later stages read no candidate variable. *)
Lemma later_stages_unset v :
  v ∈ env_vars →
  search_path_stage (Hosts.unset v w) = search_path_stage w
  ∧ common_stage (Hosts.unset v w) = common_stage w.
Proof.
  intros Hv. split; [done|].
  unfold common_stage, common_locations, environ_get. simpl.
  rewrite lookup_delete_ne; [done|].
  intros ->. by apply LOCALAPPDATA_not_candidate.
Qed.

End Unset.

Example host_c10_located :
  result (_find_cubemx_executable host_c10) = Ret "/opt/st/cubemx/STM32CubeMX".
Proof. reflexivity. Qed.

(** ** The companion-runtime locator *)

Section Java.

Context `{F : PathFlavour}.
Variable w : World.

(** One candidate: whatever the probes do, the iteration ends normally. *)
Lemma probe_java_result c :
  result (probe_java w c) = Ret (if usable w (str c) then Some (str c) else None).
Proof.
  unfold probe_java, usable. rewrite result_try_except, result_bind.
  unfold exists_, os_access_X_OK. simpl.
  destruct (exists_at w (str c)) as [[|]|e]; simpl; [|done|done].
  rewrite result_bind. simpl.
  by destruct (access_x w (str c)) as [[|]|e'].
Qed.

Lemma find_java_result cubemx_path :
  cubemx_path ≠ "" →
  result (_find_java_bundled_with_cubemx w cubemx_path) =
  Ret (default "" (str <$> List.find (λ c, usable w (str c))
                                     (java_candidates w cubemx_path))).
Proof.
  intros Hne. unfold _find_java_bundled_with_cubemx.
  destruct cubemx_path as [|a s]; [done|]. simpl negb. cbv iota.
  rewrite result_bind.
  rewrite (for_return_find _ (λ c, usable w (str c)) str); [done|].
  apply Forall_forall. intros c _. apply probe_java_result.
Qed.

End Java.

(** C9.  Given the empty path the locator returns the empty string and
    makes no access at all.  Given any other path it never raises: it
    returns the first of its candidates that exists and may be executed,
    and the empty string exactly when there is no such candidate. *)
Theorem find_java_bundled_with_cubemx_spec `{F : PathFlavour} (w : World)
    (cubemx_path : string) :
  (cubemx_path = "" →
     _find_java_bundled_with_cubemx w cubemx_path = ([], Ret ""))
  ∧ (cubemx_path ≠ "" →
     result (_find_java_bundled_with_cubemx w cubemx_path) =
       Ret (default "" (str <$> List.find (λ c, usable w (str c))
                                          (java_candidates w cubemx_path)))
     ∧ (result (_find_java_bundled_with_cubemx w cubemx_path) = Ret "" ↔
        Forall (λ c, usable w (str c) = false) (java_candidates w cubemx_path))).
Proof.
  split; [by intros ->|]. intros Hne.
  rewrite (find_java_result w cubemx_path Hne). split; [done|].
  destruct (List.find _ _) as [c|] eqn:Hfind; simpl.
  - split.
    + intros [=Hstr]. by destruct (str_nonempty c).
    + intros Hall. apply find_some in Hfind as [Hin Hc].
      rewrite Forall_forall in Hall.
      apply list_elem_of_In, Hall in Hin. congruence.
  - split; [|done]. intros _. apply Forall_forall. intros c Hin.
    apply list_elem_of_In in Hin. by apply (find_none _ _ Hfind).
Qed.

Lemma find_java_bundled_with_cubemx_spec_witness :
  _find_java_bundled_with_cubemx host_c9 "" = ([], Ret "")
  ∧ result (_find_java_bundled_with_cubemx host_c9 "/opt/st/cubemx/STM32CubeMX")
    = Ret "/opt/st/jre/bin/java".
Proof.
  split.
  - by apply (find_java_bundled_with_cubemx_spec host_c9 "").
  - destruct (find_java_bundled_with_cubemx_spec host_c9
                "/opt/st/cubemx/STM32CubeMX") as [_ Hfound].
    destruct Hfound as [Hresult _]; [discriminate|]. exact Hresult.
Defined.

(** ** The first value of [config_default] *)

Lemma elem_of_supported_os (os : string) :
  os ∈ supported_os ↔ os = "Windows" ∨ os = "Darwin" ∨ os = "Linux".
Proof.
  unfold supported_os. rewrite !elem_of_cons, elem_of_nil. tauto.
Qed.

Section Defaults.

Context `{F : PathFlavour}.
Variable w : World.

(** What the variables' stage returns is a printed path, never empty. *)
Lemma probe_env_var_nonempty v s :
  result (probe_env_var w v) = Ret (Some s) → s ≠ "".
Proof.
  unfold probe_env_var. destruct (environ w !! v) as [val|]; [|done].
  destruct (negb (truthy val)); [done|].
  rewrite result_bind. unfold exists_ at 1. simpl.
  destruct (exists_at w (str (Path val))) as [[|]|e]; [|done|done].
  rewrite result_bind. unfold is_dir. simpl.
  destruct (is_dir_at w (str (Path val))) as [[|]|e]; [| |done].
  - intros Hr. apply for_return_some_inv in Hr as (c & _ & Hc).
    rewrite result_bind in Hc. unfold exists_ in Hc. simpl in Hc.
    destruct (exists_at w (str c)) as [[|]|e]; [|done|done].
    injection Hc as <-. apply str_nonempty.
  - intros [= <-]. apply str_nonempty.
Qed.

(** An empty result means that every stage was run to its end. *)
Lemma find_cubemx_empty_inv :
  result (_find_cubemx_executable w) = Ret "" →
  ∃ common, result (common_locations w) = Ret common.
Proof.
  unfold _find_cubemx_executable. rewrite result_bind.
  destruct (result (for_return env_vars _)) as [[s|]|e] eqn:Henv; [| |done].
  - intros [= ->]. apply for_return_some_inv in Henv as (v & _ & Hv).
    by apply probe_env_var_nonempty in Hv.
  - rewrite result_bind.
    destruct (result (search_path_stage w)) as [which_path|e]; [|done].
    destruct which_path as [[|a s]|]; simpl; [| done |].
    all: unfold common_stage; rewrite result_bind;
      destruct (result (common_locations w)) as [common|e]; [by eexists|done].
Qed.

Lemma find_cubemx_empty_home :
  result (_find_cubemx_executable w) = Ret "" →
  my_os w = "Linux" → ∃ h, home w = Ret h.
Proof.
  intros Hempty Hos. destruct (find_cubemx_empty_inv Hempty) as [common Hc].
  unfold common_locations in Hc. rewrite Hos in Hc. simpl in Hc.
  rewrite result_bind in Hc. unfold Path_home in Hc.
  rewrite result_bind in Hc. simpl in Hc.
  destruct (home w) as [h|e]; [by exists h|done].
Qed.

(** The runtime locator and its fallback never raise. *)
Lemma find_java_total cubemx :
  ∃ j, result (_find_java_bundled_with_cubemx w cubemx) = Ret j.
Proof.
  destruct (decide (cubemx = "")) as [->|Hne]; [by exists ""|].
  rewrite (find_java_result w cubemx Hne). by eexists.
Qed.

Lemma detected_java_total cubemx :
  ∃ j, result (_detected_java w cubemx) = Ret j.
Proof.
  unfold _detected_java. rewrite result_bind.
  destruct (find_java_total cubemx) as [j ->].
  destruct (negb (truthy j)); by eexists.
Qed.

Lemma config_default_result cubemx java :
  result (_detected_cubemx w) = Ret cubemx →
  result (_detected_java w cubemx) = Ret java →
  result (config_default w) =
    Ret {| app := default_app cubemx java; project := default_project |}.
Proof.
  intros Hc Hj. unfold config_default. by rewrite result_bind, Hc, result_bind, Hj.
Qed.

(** Outside continuous integration the module leaves [config_default]
    as first assigned. *)
Lemma settings_without_ci :
  CI_ENV_VARIABLE w = None → result (settings w) = result (config_default w).
Proof.
  intros Hci. unfold settings, ci_override. rewrite result_bind, Hci.
  by destruct (result (config_default w)).
Qed.

Lemma default_app_lookup cubemx java :
  default_app cubemx java !! "platformio_cmd" = Some "platformio"
  ∧ default_app cubemx java !! "cubemx_cmd" = Some cubemx
  ∧ default_app cubemx java !! "java_cmd" = Some java.
Proof. unfold default_app. by simplify_map_eq. Qed.

End Defaults.

(** C4.  When no variable, search-path lookup or conventional location
    gives the generator executable (the locator returns the empty string),
    [config_default] is built and its [cubemx_cmd] is the previous default
    of the platform: a fixed path on Windows and on macOS, the fixed
    relative path [STM32CubeMX/STM32CubeMX] under the home directory on
    Linux, each of them non-empty, and the empty string on any other
    platform.  Outside continuous integration this is the loaded
    configuration. *)
Theorem cubemx_cmd_fallback `{F : PathFlavour} (w : World) :
  result (_find_cubemx_executable w) = Ret "" →
  ∃ cfg fallback,
    result (config_default w) = Ret cfg
    ∧ (CI_ENV_VARIABLE w = None → result (settings w) = Ret cfg)
    ∧ app cfg !! "cubemx_cmd" = Some fallback
    ∧ (my_os w = "Windows" →
       fallback = "C:/Program Files/STMicroelectronics/STM32Cube/STM32CubeMX/STM32CubeMX.exe")
    ∧ (my_os w = "Darwin" →
       fallback = "/Applications/STMicroelectronics/STM32CubeMX.app/Contents/MacOs/STM32CubeMX")
    ∧ (my_os w = "Linux" →
       ∃ h, home w = Ret h ∧ fallback = str (Path h // "STM32CubeMX/STM32CubeMX"))
    ∧ (my_os w ∈ supported_os → fallback ≠ "")
    ∧ (my_os w ∉ supported_os → fallback = "").
Proof.
  intros Hempty.
  assert (∃ fallback, result (_detected_cubemx w) = Ret fallback
    ∧ (my_os w = "Windows" →
       fallback = "C:/Program Files/STMicroelectronics/STM32Cube/STM32CubeMX/STM32CubeMX.exe")
    ∧ (my_os w = "Darwin" →
       fallback = "/Applications/STMicroelectronics/STM32CubeMX.app/Contents/MacOs/STM32CubeMX")
    ∧ (my_os w = "Linux" →
       ∃ h, home w = Ret h ∧ fallback = str (Path h // "STM32CubeMX/STM32CubeMX"))
    ∧ (my_os w ∈ supported_os → fallback ≠ "")
    ∧ (my_os w ∉ supported_os → fallback = "")) as (fallback & Hd & Hfacts).
  { unfold _detected_cubemx. rewrite result_bind, Hempty. simpl. unfold str_eq.
    destruct (String.eqb_spec (my_os w) "Darwin") as [Hos|Hdarwin].
    { eexists. split; [done|]. rewrite Hos.
      repeat split; try done. rewrite elem_of_supported_os. tauto. }
    destruct (String.eqb_spec (my_os w) "Linux") as [Hos|Hlinux].
    { destruct (find_cubemx_empty_home w Hempty Hos) as [h Hh].
      exists (str (Path h // "STM32CubeMX/STM32CubeMX")).
      rewrite result_bind. unfold Path_home. rewrite result_bind. simpl.
      rewrite Hh. simpl. split; [done|]. rewrite Hos.
      repeat split; try done.
      - by exists h.
      - intros _. apply str_nonempty.
      - rewrite elem_of_supported_os. tauto. }
    destruct (String.eqb_spec (my_os w) "Windows") as [Hos|Hwindows].
    { eexists. split; [done|]. rewrite Hos.
      repeat split; try done. rewrite elem_of_supported_os. tauto. }
    exists "". split; [done|]. repeat split; try done.
    rewrite elem_of_supported_os. tauto. }
  destruct (detected_java_total w fallback) as [java Hj].
  pose proof (config_default_result w fallback java Hd Hj) as Hcfg.
  eexists _, fallback. split; [exact Hcfg|]. split.
  - intros Hci. by rewrite settings_without_ci.
  - split; [apply default_app_lookup | exact Hfacts].
Qed.

Lemma cubemx_cmd_fallback_witness :
  ∃ cfg fallback,
    result (settings (host_bare "Linux")) = Ret cfg
    ∧ app cfg !! "cubemx_cmd" = Some fallback
    ∧ fallback = "/home/dev/STM32CubeMX/STM32CubeMX".
Proof.
  destruct (cubemx_cmd_fallback (host_bare "Linux"))
    as (cfg & fallback & _ & Hload & Hcmd & _ & _ & Hlinux & _); [reflexivity|].
  exists cfg, fallback. split; [by apply Hload|]. split; [exact Hcmd|].
  destruct Hlinux as (h & Hh & ->); [reflexivity|].
  injection Hh as <-. reflexivity.
Defined.

(** C5.  When the companion-runtime locator, run on the detected generator
    path, returns the empty string, [java_cmd] of [config_default] is the
    fixed [jre] path on Windows and the text [None] (a [str]) on every
    other platform.  Outside continuous integration this is the loaded
    configuration. *)
Theorem java_cmd_fallback `{F : PathFlavour} (w : World) (cubemx : string) :
  result (_detected_cubemx w) = Ret cubemx →
  result (_find_java_bundled_with_cubemx w cubemx) = Ret "" →
  ∃ cfg,
    result (config_default w) = Ret cfg
    ∧ (CI_ENV_VARIABLE w = None → result (settings w) = Ret cfg)
    ∧ (my_os w = "Windows" →
       app cfg !! "java_cmd" =
         Some "C:/Program Files/STMicroelectronics/STM32Cube/STM32CubeMX/jre/bin/java.exe")
    ∧ (my_os w ≠ "Windows" → app cfg !! "java_cmd" = Some "None").
Proof.
  intros Hc Hempty.
  assert (result (_detected_java w cubemx) =
          Ret (if str_eq (my_os w) "Windows"
               then "C:/Program Files/STMicroelectronics/STM32Cube/STM32CubeMX/jre/bin/java.exe"
               else "None")) as Hj.
  { unfold _detected_java. by rewrite result_bind, Hempty. }
  eexists. split; [exact (config_default_result w _ _ Hc Hj)|]. split.
  - intros Hci. rewrite settings_without_ci by done.
    exact (config_default_result w _ _ Hc Hj).
  - simpl. unfold str_eq.
    destruct (String.eqb_spec (my_os w) "Windows") as [Hos|Hos];
      split; intros Hos'; try done; apply default_app_lookup.
Qed.

Lemma java_cmd_fallback_witness :
  ∃ cfg,
    result (settings (host_bare "Darwin")) = Ret cfg
    ∧ app cfg !! "java_cmd" = Some "None".
Proof.
  destruct (java_cmd_fallback (host_bare "Darwin")
              "/Applications/STMicroelectronics/STM32CubeMX.app/Contents/MacOs/STM32CubeMX")
    as (cfg & _ & Hload & _ & Hother); [reflexivity|reflexivity|].
  exists cfg. split; [by apply Hload | by apply Hother].
Defined.

(** ** The continuous-integration part *)

Section CI.

Context `{F : PathFlavour}.
Variable w : World.

Lemma ci_override_absent cfg :
  CI_ENV_VARIABLE w = None → ci_override w cfg = ret cfg.
Proof. unfold ci_override. by intros ->. Qed.

(** Without the cache-folder variable the block ends at [Path(None)]. *)
Lemma ci_override_without_cache_folder marker cfg :
  CI_ENV_VARIABLE w = Some marker →
  environ w !! "STM32PIO_CUBEMX_CACHE_FOLDER" = None →
  ci_override w cfg = raise TypeError.
Proof.
  intros Hci Hcache. unfold ci_override, Path_of_environ. by rewrite Hci, Hcache.
Qed.

(** When the block runs to its end. *)
Lemma ci_override_result marker cache mixin before cfg :
  CI_ENV_VARIABLE w = Some marker →
  environ w !! "STM32PIO_CUBEMX_CACHE_FOLDER" = Some cache →
  result (patch_mixin w) = Ret mixin →
  project cfg !! "platformio_ini_patch_content" = Some (VStr before) →
  result (ci_override w cfg) =
    Ret {| app := ci_app (Path cache);
           project := <["platformio_ini_patch_content" := VStr (before +:+ mixin)]>
                        (project cfg) |}.
Proof.
  intros Hci Hcache Hmixin Hpatch. unfold ci_override, Path_of_environ.
  rewrite Hci, Hcache, bind_ret_l, result_bind, Hmixin, result_bind.
  unfold append_patch. simpl. by rewrite Hpatch.
Qed.

(** A configuration that the block returns was made in that way. *)
Lemma ci_override_inv marker cfg cfg' :
  CI_ENV_VARIABLE w = Some marker →
  result (ci_override w cfg) = Ret cfg' →
  ∃ cache mixin before,
    environ w !! "STM32PIO_CUBEMX_CACHE_FOLDER" = Some cache
    ∧ result (patch_mixin w) = Ret mixin
    ∧ project cfg !! "platformio_ini_patch_content" = Some (VStr before)
    ∧ cfg' = {| app := ci_app (Path cache);
                project := <["platformio_ini_patch_content" := VStr (before +:+ mixin)]>
                             (project cfg) |}.
Proof.
  intros Hci. unfold ci_override, Path_of_environ. rewrite Hci.
  destruct (environ w !! "STM32PIO_CUBEMX_CACHE_FOLDER") as [cache|]; [|done].
  rewrite bind_ret_l, result_bind.
  destruct (result (patch_mixin w)) as [mixin|e]; [|done].
  rewrite result_bind. unfold append_patch. simpl.
  destruct (project cfg !! "platformio_ini_patch_content") as [[before|b]|];
    [|done|done].
  intros [= <-]. by exists cache, mixin, before.
Qed.

(** What is appended to the patch: the lock file of the test case, after
    an empty line, if there is one. *)
Lemma patch_mixin_no_case :
  TEST_CASE w = None → patch_mixin w = ret "".
Proof. unfold patch_mixin. by intros ->. Qed.

Lemma patch_mixin_no_lockfile test_case :
  TEST_CASE w = Some test_case →
  exists_at w (str (platformio_ini_lockfile w test_case)) = Ret false →
  result (patch_mixin w) = Ret "".
Proof.
  intros Hcase He. unfold patch_mixin. rewrite Hcase, result_bind.
  unfold exists_. simpl. by rewrite He.
Qed.

Lemma patch_mixin_lockfile test_case text :
  TEST_CASE w = Some test_case →
  exists_at w (str (platformio_ini_lockfile w test_case)) = Ret true →
  text_at w (str (platformio_ini_lockfile w test_case)) = Ret text →
  result (patch_mixin w) = Ret (LF +:+ LF +:+ text).
Proof.
  intros Hcase He Ht. unfold patch_mixin. rewrite Hcase, result_bind.
  unfold exists_ at 1. simpl. rewrite He, result_bind.
  unfold read_text. simpl. by rewrite Ht.
Qed.

Lemma config_default_project cfg :
  result (config_default w) = Ret cfg → project cfg = default_project.
Proof.
  unfold config_default. rewrite result_bind.
  destruct (result (_detected_cubemx w)) as [cubemx|e]; [|done].
  rewrite result_bind.
  destruct (result (_detected_java w cubemx)) as [java|e]; [|done].
  by intros [= <-].
Qed.

Lemma default_project_patch :
  default_project !! "platformio_ini_patch_content" =
    Some (VStr platformio_ini_patch_content).
Proof. unfold default_project. by simplify_map_eq. Qed.

Lemma ci_app_lookup cache :
  ci_app cache !! "platformio_cmd" = Some "platformio"
  ∧ ci_app cache !! "cubemx_cmd" = Some (str (cache // "STM32CubeMX.exe"))
  ∧ ci_app cache !! "java_cmd" = Some "java".
Proof. unfold ci_app. by simplify_map_eq. Qed.

Lemma settings_inv cfg :
  result (settings w) = Ret cfg →
  ∃ cfg0, result (config_default w) = Ret cfg0
          ∧ result (ci_override w cfg0) = Ret cfg.
Proof.
  unfold settings. rewrite result_bind.
  destruct (result (config_default w)) as [cfg0|e]; [|done]. by exists cfg0.
Qed.

End CI.

(** C7.  Without the marker variable the block does nothing:
    [config_default], its [app] section included, stays as first assigned.
    With the marker (whatever its value), a configuration that the block
    returns has an [app] section that is the continuous-integration mapping
    and nothing else, whatever [app] was before, and every key of [project]
    other than [platformio_ini_patch_content] is as before; and the block
    does return one when the cache-folder variable is set, the lock file of
    the test case can be probed and read, and the patch is a [str]. *)
Theorem ci_override_frame `{F : PathFlavour} (w : World) (cfg : config) :
  (CI_ENV_VARIABLE w = None →
     ci_override w cfg = ret cfg
     ∧ result (settings w) = result (config_default w))
  ∧ (∀ marker cfg',
       CI_ENV_VARIABLE w = Some marker →
       result (ci_override w cfg) = Ret cfg' →
       (∃ cache,
          environ w !! "STM32PIO_CUBEMX_CACHE_FOLDER" = Some cache
          ∧ app cfg' = ci_app (Path cache))
       ∧ ∀ key, key ≠ "platformio_ini_patch_content" →
                project cfg' !! key = project cfg !! key)
  ∧ (∀ marker cache mixin before,
       CI_ENV_VARIABLE w = Some marker →
       environ w !! "STM32PIO_CUBEMX_CACHE_FOLDER" = Some cache →
       result (patch_mixin w) = Ret mixin →
       project cfg !! "platformio_ini_patch_content" = Some (VStr before) →
       ∃ cfg', result (ci_override w cfg) = Ret cfg').
Proof.
  split; [|split].
  - intros Hci. split; [by apply ci_override_absent | by apply settings_without_ci].
  - intros marker cfg' Hci Hr.
    destruct (ci_override_inv w marker cfg cfg' Hci Hr)
      as (cache & mixin & before & Hcache & _ & _ & ->).
    split; [by exists cache|].
    intros key Hkey. simpl. by rewrite lookup_insert_ne.
  - intros marker cache mixin before Hci Hcache Hmixin Hbefore.
    eexists. by apply (ci_override_result w marker cache mixin before).
Qed.

Lemma ci_override_frame_witness :
  ∃ cfg',
    result (ci_override host_ci some_config) = Ret cfg'
    ∧ app cfg' = ci_app (Path "/cache")
    ∧ app cfg' !! "editor" = None
    ∧ project cfg' !! "board" = Some (VStr "nucleo_f031k6").
Proof.
  eexists. split; [reflexivity|].
  destruct (ci_override_frame host_ci some_config) as (_ & Hpresent & _).
  destruct (Hpresent "/home/vsts/work/1" _ eq_refl eq_refl) as [Happ Hkeys].
  destruct Happ as (cache & Hcache & Happ). injection Hcache as <-.
  split; [exact Happ|]. split; [reflexivity|].
  rewrite Hkeys; [reflexivity | discriminate].
Defined.

(** C6, on a host with POSIX paths.  With the marker variable present and
    the cache-folder variable set to [/cache], a loaded configuration has
    [cubemx_cmd] equal to [/cache/STM32CubeMX.exe], [java_cmd] equal to
    [java] and [platformio_cmd] equal to [platformio]; and the module does
    load whenever [config_default] is built and the lock file of the test
    case can be probed and read. *)
Theorem ci_cache_scenario_posix (w : World) (marker : string) :
  CI_ENV_VARIABLE w = Some marker →
  environ w !! "STM32PIO_CUBEMX_CACHE_FOLDER" = Some "/cache" →
  (∀ cfg, result (settings (F:=posix) w) = Ret cfg →
     app cfg !! "cubemx_cmd" = Some "/cache/STM32CubeMX.exe"
     ∧ app cfg !! "java_cmd" = Some "java"
     ∧ app cfg !! "platformio_cmd" = Some "platformio")
  ∧ (∀ cfg0 mixin,
       result (config_default (F:=posix) w) = Ret cfg0 →
       result (patch_mixin (F:=posix) w) = Ret mixin →
       ∃ cfg, result (settings (F:=posix) w) = Ret cfg).
Proof.
  intros Hci Hcache. split.
  - intros cfg Hr. destruct (settings_inv w cfg Hr) as (cfg0 & _ & Hover).
    destruct (ci_override_inv w marker cfg0 cfg Hci Hover)
      as (cache & mixin & before & Hcache' & _ & _ & ->).
    rewrite Hcache in Hcache'. injection Hcache' as <-. cbn [app].
    destruct (ci_app_lookup (F:=posix) (Path "/cache")) as (Hp & Hc & Hj).
    by rewrite Hp, Hc, Hj.
  - intros cfg0 mixin Hcfg0 Hmixin. unfold settings.
    rewrite result_bind, Hcfg0.
    erewrite ci_override_result; [by eexists|done..|].
    rewrite (config_default_project w cfg0 Hcfg0). apply default_project_patch.
Qed.

Lemma ci_cache_scenario_posix_witness :
  ∃ cfg,
    result (settings (F:=posix) host_ci) = Ret cfg
    ∧ app cfg !! "cubemx_cmd" = Some "/cache/STM32CubeMX.exe"
    ∧ app cfg !! "java_cmd" = Some "java"
    ∧ app cfg !! "platformio_cmd" = Some "platformio".
Proof.
  destruct (ci_cache_scenario_posix host_ci "/home/vsts/work/1")
    as [Hshape Hloads]; [reflexivity|reflexivity|].
  destruct (Hloads _ "" eq_refl eq_refl) as [cfg Hcfg].
  exists cfg. split; [exact Hcfg | exact (Hshape cfg Hcfg)].
Defined.

(** The claim as worded fails on Windows, where [pathlib] prints the joined
    path with backslashes. *)
Lemma ci_cache_scenario_windows :
  CI_ENV_VARIABLE host_ci_windows = Some "/home/vsts/work/1"
  ∧ environ host_ci_windows !! "STM32PIO_CUBEMX_CACHE_FOLDER" = Some "/cache"
  ∧ ∃ cfg,
      result (settings (F:=windows) host_ci_windows) = Ret cfg
      ∧ app cfg !! "cubemx_cmd" = Some "\cache\STM32CubeMX.exe"
      ∧ app cfg !! "cubemx_cmd" ≠ Some "/cache/STM32CubeMX.exe".
Proof.
  split; [reflexivity|]. split; [reflexivity|].
  eexists. split; [reflexivity|]. split; [reflexivity|discriminate].
Qed.

(** C8, with the fixtures root as the module resolves it.  Under the
    continuous-integration block, the lock file is looked for at
    [root/test_case/platformio.ini.lockfile], where [root] is the value of
    [STM32PIO_TEST_FIXTURES] or, when that variable is unset, the directory
    [../../tests/fixtures] next to the module.  The text of that file, after
    an empty line, is appended to [platformio_ini_patch_content] when
    [STM32PIO_TEST_CASE] is set and the file exists; when that variable is
    unset or the file does not exist, the value is unchanged. *)
Theorem ci_patch_content `{F : PathFlavour} (w : World)
    (marker cache before : string) (cfg : config) :
  CI_ENV_VARIABLE w = Some marker →
  environ w !! "STM32PIO_CUBEMX_CACHE_FOLDER" = Some cache →
  project cfg !! "platformio_ini_patch_content" = Some (VStr before) →
  let root :=
    match environ w !! "STM32PIO_TEST_FIXTURES" with
    | Some fixtures => Path fixtures
    | None => parent (Path (module_file w)) // "../../tests/fixtures"
    end in
  match environ w !! "STM32PIO_TEST_CASE" with
  | None =>
      ∃ cfg', result (ci_override w cfg) = Ret cfg'
              ∧ project cfg' !! "platformio_ini_patch_content" = Some (VStr before)
  | Some test_case =>
      let lockfile := str (root // test_case // "platformio.ini.lockfile") in
      (exists_at w lockfile = Ret false →
         ∃ cfg', result (ci_override w cfg) = Ret cfg'
                 ∧ project cfg' !! "platformio_ini_patch_content" = Some (VStr before))
      ∧ (∀ text,
           exists_at w lockfile = Ret true →
           text_at w lockfile = Ret text →
           ∃ cfg', result (ci_override w cfg) = Ret cfg'
                   ∧ project cfg' !! "platformio_ini_patch_content" =
                       Some (VStr (before +:+ LF +:+ LF +:+ text)))
  end.
Proof.
  intros Hci Hcache Hbefore root.
  pose proof (ci_override_result w marker cache) as Hrun.
  destruct (environ w !! "STM32PIO_TEST_CASE") as [test_case|] eqn:Hcase.
  - split.
    + intros He. eexists. split.
      * apply Hrun; [done|done| |done]. by apply (patch_mixin_no_lockfile w test_case).
      * simpl. by rewrite lookup_insert_eq, append_empty_r.
    + intros text He Ht. eexists. split.
      * apply Hrun; [done|done| |done]. by apply (patch_mixin_lockfile w test_case).
      * simpl. by rewrite lookup_insert_eq.
  - eexists. split.
    + apply Hrun; [done|done| |done]. by rewrite patch_mixin_no_case.
    + simpl. by rewrite lookup_insert_eq, append_empty_r.
Qed.

Lemma ci_patch_content_witness :
  ∃ cfg',
    result (ci_override host_ci_fixture some_config) = Ret cfg'
    ∧ project cfg' !! "platformio_ini_patch_content" =
        Some (VStr (platformio_ini_patch_content +:+ LF +:+ LF +:+ "[env:nucleo_f031k6]")).
Proof.
  destruct (ci_patch_content host_ci_fixture "/home/vsts/work/1" "/cache"
              platformio_ini_patch_content some_config eq_refl eq_refl eq_refl)
    as [_ Happended].
  exact (Happended "[env:nucleo_f031k6]" eq_refl eq_refl).
Defined.

(** The claim as worded fails: with the fixtures-root variable unset the
    lock file under the default root is appended all the same. *)
Lemma ci_patch_content_default_root :
  environ host_ci_fixture !! "STM32PIO_TEST_FIXTURES" = None
  ∧ ∃ cfg,
      result (settings host_ci_fixture) = Ret cfg
      ∧ project cfg !! "platformio_ini_patch_content" =
          Some (VStr (platformio_ini_patch_content +:+ LF +:+ LF +:+ "[env:nucleo_f031k6]"))
      ∧ project cfg !! "platformio_ini_patch_content" ≠
          Some (VStr platformio_ini_patch_content).
Proof.
  split; [reflexivity|]. eexists. split; [reflexivity|].
  split; [reflexivity|discriminate].
Qed.

(** ** Exceptions that leave the module *)

(** The loop over the conventional locations handles every exception of
    its probe, as the loop of the runtime locator does. *)
Lemma probe_common_total `{F : PathFlavour} (w : World) (p : path) :
  ∃ r, result (probe_common w p) = Ret r.
Proof.
  unfold probe_common. rewrite result_try_except, result_bind.
  unfold exists_. simpl. destruct (exists_at w (str p)) as [b|e]; by eexists.
Qed.

(** C2 does not hold of the code.  An error of [exists()] on the path that
    a candidate variable names is not handled and leaves the locator,
    whereas the same error at a conventional location is handled and the
    search goes on. *)
Theorem find_cubemx_env_probe_error_escapes :
  result (_find_cubemx_executable host_denied) = Raise PermissionError
  ∧ trace (_find_cubemx_executable host_denied) = [EExists "/root/cubemx"]
  ∧ result (_find_cubemx_executable host_denied_common) = Ret "/usr/bin/STM32CubeMX".
Proof. repeat split; reflexivity. Qed.

(** C1 does not hold of the code.  With the marker variable present and
    [STM32PIO_CUBEMX_CACHE_FOLDER] absent, loading the module ends in the
    [TypeError] of [Path(None)], although [config_default] had been built;
    and the unhandled probe error of the locator ends the loading as well. *)
Theorem settings_raises :
  CI_ENV_VARIABLE host_ci_no_cache = Some "/home/vsts/work/1"
  ∧ environ host_ci_no_cache !! "STM32PIO_CUBEMX_CACHE_FOLDER" = None
  ∧ (∃ cfg, result (config_default host_ci_no_cache) = Ret cfg)
  ∧ result (settings host_ci_no_cache) = Raise TypeError
  ∧ result (settings host_denied) = Raise PermissionError.
Proof.
  split; [reflexivity|]. split; [reflexivity|].
  split; [eexists; reflexivity|]. split; reflexivity.
Qed.

(** * Further properties of the module *)

(** ** More laws of loops *)

Section MoreLoopLaws.

Context {A B : Type}.

(** A loop that raises does so in one of its iterations. *)
Lemma for_return_raise_inv (body : A → M (option B)) (xs : list A) (e : exn) :
  result (for_return xs body) = Raise e →
  ∃ x, x ∈ xs ∧ result (body x) = Raise e.
Proof.
  induction xs as [|x xs IH]; [done|].
  rewrite for_return_cons, result_bind.
  destruct (result (body x)) as [[b|]|e'] eqn:Hx; [done|intros Hr|].
  - destruct (IH Hr) as (y & Hin & Hy). exists y. split; [by right|done].
  - intros [= ->]. exists x. split; [left|done].
Qed.

(** A loop whose iterations do not raise does not raise. *)
Lemma for_return_total (body : A → M (option B)) (xs : list A) :
  (∀ x, x ∈ xs → ∃ r, result (body x) = Ret r) →
  ∃ r, result (for_return xs body) = Ret r.
Proof.
  intros Hbody. destruct (result (for_return xs body)) as [r|e] eqn:Hr; [by exists r|].
  apply for_return_raise_inv in Hr as (x & Hin & Hx).
  destruct (Hbody x Hin) as [r Hr]. congruence.
Qed.

(** The accesses of a loop that returns in the iteration after [skipped]. *)
Lemma for_return_hit_after (body : A → M (option B)) (skipped rest : list A)
    (x : A) (b : B) :
  Forall (λ y, result (body y) = Ret None) skipped →
  result (body x) = Ret (Some b) →
  result (for_return (skipped ++ x :: rest) body) = Ret (Some b)
  ∧ trace (for_return (skipped ++ x :: rest) body) =
    flat_map (λ y, trace (body y)) (skipped ++ [x]).
Proof.
  intros Hskipped Hx.
  destruct (for_return_skip body skipped (x :: rest) Hskipped) as [Hr Ht].
  destruct (for_return_hit body x rest b Hx) as [Hr' Ht'].
  rewrite Hr, Hr', Ht, Ht', flat_map_app. simpl. by rewrite app_nil_r.
Qed.

(** The accesses of a loop that runs to its end. *)
Lemma for_return_miss (body : A → M (option B)) (xs : list A) :
  Forall (λ y, result (body y) = Ret None) xs →
  result (for_return xs body) = Ret None
  ∧ trace (for_return xs body) = flat_map (λ y, trace (body y)) xs.
Proof.
  intros Hxs. destruct (for_return_skip body xs [] Hxs) as [Hr Ht].
  rewrite app_nil_r in Hr, Ht. rewrite Hr, Ht. split; [done|]. by rewrite app_nil_r.
Qed.

End MoreLoopLaws.

(** ** The stages of the executable locator *)

Section Stages.

Context `{F : PathFlavour}.
Variable w : World.

(** A single existence test makes a single access, whatever it answers. *)
Lemma trace_exists_then {A} (p : path) (f : bool → A) :
  trace (let* e := exists_ w p in ret (f e)) = [EExists (str p)].
Proof.
  rewrite trace_bind. unfold exists_. simpl.
  by destruct (exists_at w (str p)).
Qed.

Lemma result_exists_then {A} (p : path) (f : bool → A) (b : bool) :
  exists_at w (str p) = Ret b →
  result (let* e := exists_ w p in ret (f e)) = Ret (f b).
Proof. intros He. rewrite result_bind. unfold exists_. simpl. by rewrite He. Qed.

(** A variable that names a directory: its candidates are tried in order. *)
Lemma probe_env_var_directory v val skipped c rest :
  environ w !! v = Some val → val ≠ "" →
  exists_at w (str (Path val)) = Ret true →
  is_dir_at w (str (Path val)) = Ret true →
  candidates_in (Path val) = skipped ++ c :: rest →
  Forall (λ d, exists_at w (str d) = Ret false) skipped →
  exists_at w (str c) = Ret true →
  result (probe_env_var w v) = Ret (Some (str c))
  ∧ trace (probe_env_var w v) =
    [EExists (str (Path val)); EIsDir (str (Path val))]
    ++ map (λ d, EExists (str d)) (skipped ++ [c]).
Proof.
  intros Hv Hval He Hd Hcands Hskipped Hc. unfold probe_env_var. rewrite Hv.
  destruct val as [|a val]; [done|]. simpl negb. cbv iota.
  set (body := λ d : path, let* ec := exists_ w d in
                           ret (if ec then Some (str d) else None)).
  assert (exists_ w (Path (String a val)) =
          ([EExists (str (Path (String a val)))], Ret true)) as ->
    by (unfold exists_, perform; by rewrite He).
  assert (is_dir w (Path (String a val)) =
          ([EIsDir (str (Path (String a val)))], Ret true)) as ->
    by (unfold is_dir, perform; by rewrite Hd).
  rewrite Hcands, result_bind, trace_bind. simpl. rewrite result_bind, trace_bind.
  simpl.
  destruct (for_return_hit_after body skipped rest c (str c)) as [Hr Ht].
  - eapply Forall_impl; [exact Hskipped|]. intros d Hd'. simpl in Hd'.
    unfold body. by rewrite (result_exists_then d _ false).
  - unfold body. by rewrite (result_exists_then c _ true).
  - rewrite Hr, Ht. split; [reflexivity|]. f_equal. f_equal.
    generalize (skipped ++ [c]). intros l.
    induction l as [|d l IH]; [reflexivity|].
    simpl. unfold body at 1. by rewrite trace_exists_then, IH.
Qed.

(** The locator once the variables gave nothing. *)
Lemma find_cubemx_after_env :
  Forall (λ u, result (probe_env_var w u) = Ret None) env_vars →
  result (_find_cubemx_executable w) =
    result (let* which_path := search_path_stage w in
            if truthy_opt which_path then ret (default "" which_path)
            else common_stage w)
  ∧ trace (_find_cubemx_executable w) =
    flat_map (λ u, trace (probe_env_var w u)) env_vars
    ++ trace (let* which_path := search_path_stage w in
              if truthy_opt which_path then ret (default "" which_path)
              else common_stage w).
Proof.
  intros Henv. destruct (for_return_miss (probe_env_var w) env_vars Henv) as [Hr Ht].
  unfold _find_cubemx_executable. by rewrite result_bind, trace_bind, Hr, Ht.
Qed.

Lemma search_path_stage_first p :
  which w (exec_name w) = Some p → p ≠ "" →
  search_path_stage w = ([EWhich (exec_name w)], Ret (Some p)).
Proof.
  intros Hw Hp. unfold search_path_stage, shutil_which, perform, bind.
  fold (exec_name w). rewrite Hw. by destruct p.
Qed.

Lemma search_path_stage_second :
  truthy_opt (which w (exec_name w)) = false →
  search_path_stage w =
    ([EWhich (exec_name w); EWhich "STM32CubeMX"], Ret (which w "STM32CubeMX")).
Proof.
  intros Hw. unfold search_path_stage, shutil_which, perform, bind.
  fold (exec_name w). by rewrite Hw.
Qed.

(** The conventional locations are known unless the home directory of a
    Linux host is not; other platforms than the three have none. *)
Lemma common_locations_total :
  (my_os w = "Linux" → ∃ h, home w = Ret h) →
  ∃ common, result (common_locations w) = Ret common
            ∧ (my_os w ∉ supported_os → common = []).
Proof.
  intros Hhome. unfold common_locations, str_eq.
  destruct (String.eqb_spec (my_os w) "Windows") as [Hos|Hwindows].
  { eexists. split; [done|]. rewrite elem_of_supported_os. tauto. }
  destruct (String.eqb_spec (my_os w) "Darwin") as [Hos|Hdarwin].
  { eexists. split; [done|]. rewrite elem_of_supported_os. tauto. }
  destruct (String.eqb_spec (my_os w) "Linux") as [Hos|Hlinux].
  { destruct (Hhome Hos) as [h Hh]. eexists.
    rewrite result_bind. unfold Path_home. rewrite result_bind. simpl.
    rewrite Hh. simpl. split; [done|]. rewrite elem_of_supported_os. tauto. }
  by exists [].
Qed.

Lemma probe_common_result p :
  result (probe_common w p) =
    Ret (if present w (str p) then Some (str p) else None).
Proof.
  unfold probe_common, present. rewrite result_try_except, result_bind.
  unfold exists_. simpl. by destruct (exists_at w (str p)) as [[|]|e].
Qed.

(** The last stage returns the first conventional location that is there. *)
Lemma common_stage_result common :
  result (common_locations w) = Ret common →
  result (common_stage w) =
    Ret (default "" (str <$> List.find (λ p, present w (str p)) common)).
Proof.
  intros Hc. unfold common_stage. rewrite result_bind, Hc, result_bind.
  rewrite (for_return_find _ (λ p, present w (str p)) str); [done|].
  apply Forall_forall. intros p _. apply probe_common_result.
Qed.

End Stages.

(** ** A directory without the executable *)

Section FromLaterVariable.

Context `{F : PathFlavour}.
Variable w : World.

(** The body of the locator, with the loop over the variables started at
    a later one. *)
Definition find_cubemx_from (vars : list string) : M string :=
  let* r := for_return vars (probe_env_var w) in
  match r with
  | Some s => ret s
  | None =>
      let* which_path := search_path_stage w in
      if truthy_opt which_path then ret (default "" which_path)
      else common_stage w
  end.

Lemma find_cubemx_from_env_vars :
  _find_cubemx_executable w = find_cubemx_from env_vars.
Proof. reflexivity. Qed.

(** Variables whose iterations end without a result are gone through, and
    the locator goes on with the variables after them. *)
Lemma find_cubemx_from_skip (skipped vars : list string) :
  Forall (λ u, result (probe_env_var w u) = Ret None) skipped →
  result (find_cubemx_from (skipped ++ vars)) = result (find_cubemx_from vars)
  ∧ trace (find_cubemx_from (skipped ++ vars)) =
    flat_map (λ u, trace (probe_env_var w u)) skipped
    ++ trace (find_cubemx_from vars).
Proof.
  intros Hskipped.
  destruct (for_return_skip (probe_env_var w) skipped vars Hskipped) as [Hr Ht].
  unfold find_cubemx_from. rewrite !result_bind, !trace_bind, Hr, Ht.
  split; [done|]. by rewrite app_assoc.
Qed.

Lemma find_cubemx_from_hit (skipped later : list string) (u s : string) :
  Forall (λ u, result (probe_env_var w u) = Ret None) skipped →
  result (probe_env_var w u) = Ret (Some s) →
  result (find_cubemx_from (skipped ++ u :: later)) = Ret s.
Proof.
  intros Hskipped Hu.
  destruct (for_return_hit_after (probe_env_var w) skipped later u s Hskipped Hu)
    as [Hr _].
  unfold find_cubemx_from. by rewrite result_bind, Hr.
Qed.

Lemma find_cubemx_from_raise (skipped later : list string) (u : string) (e : exn) :
  Forall (λ u, result (probe_env_var w u) = Ret None) skipped →
  result (probe_env_var w u) = Raise e →
  result (find_cubemx_from (skipped ++ u :: later)) = Raise e.
Proof.
  intros Hskipped Hu.
  destruct (for_return_skip (probe_env_var w) skipped (u :: later) Hskipped)
    as [Hr _].
  unfold find_cubemx_from.
  by rewrite result_bind, Hr, (for_return_raise _ _ _ e Hu).
Qed.

Lemma find_cubemx_from_miss (vars : list string) :
  Forall (λ u, result (probe_env_var w u) = Ret None) vars →
  result (find_cubemx_from vars) =
    result (let* which_path := search_path_stage w in
            if truthy_opt which_path then ret (default "" which_path)
            else common_stage w).
Proof.
  intros Hvars. destruct (for_return_miss (probe_env_var w) vars Hvars) as [Hr _].
  unfold find_cubemx_from. by rewrite result_bind, Hr.
Qed.

(** The iteration of a variable that names a directory without any of the
    three names: five looks, no result. *)
Lemma probe_env_var_empty_dir_run v val :
  environ w !! v = Some val → val ≠ "" →
  exists_at w (str (Path val)) = Ret true →
  is_dir_at w (str (Path val)) = Ret true →
  Forall (λ c, exists_at w (str c) = Ret false) (candidates_in (Path val)) →
  probe_env_var w v =
    ([EExists (str (Path val)); EIsDir (str (Path val))]
     ++ map (λ c, EExists (str c)) (candidates_in (Path val)),
     Ret None).
Proof.
  intros Hv Hval He Hd Hc. unfold probe_env_var. rewrite Hv.
  destruct val as [|a val]; [done|]. simpl negb. cbv iota.
  set (body := λ d : path, let* ec := exists_ w d in
                           ret (if ec then Some (str d) else None)).
  assert (exists_ w (Path (String a val)) =
          ([EExists (str (Path (String a val)))], Ret true)) as ->
    by (unfold exists_, perform; by rewrite He).
  assert (is_dir w (Path (String a val)) =
          ([EIsDir (str (Path (String a val)))], Ret true)) as ->
    by (unfold is_dir, perform; by rewrite Hd).
  destruct (for_return_miss body (candidates_in (Path (String a val)))) as [Hr Ht].
  { eapply Forall_impl; [exact Hc|]. intros d Hd'. simpl in Hd'.
    unfold body. by rewrite (result_exists_then w d _ false). }
  assert (flat_map (λ d, trace (body d)) (candidates_in (Path (String a val)))
          = map (λ d, EExists (str d)) (candidates_in (Path (String a val))))
    as Hmap.
  { generalize (candidates_in (Path (String a val))). intros l.
    induction l as [|d l IH]; [reflexivity|].
    simpl. unfold body at 1. by rewrite trace_exists_then, IH. }
  apply injective_projections.
  - change (trace (let* e := ([EExists (str (Path (String a val)))], Ret true) in
                   if e then
                     let* d := ([EIsDir (str (Path (String a val)))], Ret true) in
                     if d then for_return (candidates_in (Path (String a val))) body
                     else ret (Some (str (Path (String a val))))
                   else ret None)
            = [EExists (str (Path (String a val))); EIsDir (str (Path (String a val)))]
              ++ map (λ c, EExists (str c)) (candidates_in (Path (String a val)))).
    rewrite trace_bind. simpl. rewrite trace_bind. simpl. by rewrite Ht, Hmap.
  - change (result (let* e := ([EExists (str (Path (String a val)))], Ret true) in
                    if e then
                      let* d := ([EIsDir (str (Path (String a val)))], Ret true) in
                      if d then for_return (candidates_in (Path (String a val))) body
                      else ret (Some (str (Path (String a val))))
                    else ret None)
            = Ret None).
    rewrite result_bind. simpl. rewrite result_bind. simpl. exact Hr.
Qed.

End FromLaterVariable.

(** C10.  A candidate variable that names an existing directory holding
    none of the three executable names ends its iteration, after the look
    at each name, without a result: the locator returns neither the
    directory nor the empty string there.  It goes on with the variables
    after it, of which the first to give a result, or to raise, decides;
    when none does, a hit on the search path is returned; and when there
    is none either, the first conventional location that exists, or the
    empty string.  What it finally returns or raises is what it would with
    that variable unset. *)
Theorem find_cubemx_env_dir_without_executable `{F : PathFlavour} (w : World)
    (v val : string) :
  v ∈ env_vars →
  environ w !! v = Some val →
  val ≠ "" →
  exists_at w (str (Path val)) = Ret true →
  is_dir_at w (str (Path val)) = Ret true →
  Forall (λ c, exists_at w (str c) = Ret false) (candidates_in (Path val)) →
  probe_env_var w v =
    ([EExists (str (Path val)); EIsDir (str (Path val))]
     ++ map (λ c, EExists (str c)) (candidates_in (Path val)),
     Ret None)
  ∧ result (_find_cubemx_executable w) =
    result (_find_cubemx_executable (Hosts.unset v w))
  ∧ ∀ before after,
      env_vars = before ++ v :: after →
      Forall (λ u, result (probe_env_var w u) = Ret None) before →
      result (_find_cubemx_executable w) = result (find_cubemx_from w after)
      ∧ trace (_find_cubemx_executable w) =
        flat_map (λ u, trace (probe_env_var w u)) before
        ++ trace (probe_env_var w v)
        ++ trace (find_cubemx_from w after)
      ∧ (∀ skipped u later s,
           after = skipped ++ u :: later →
           Forall (λ u, result (probe_env_var w u) = Ret None) skipped →
           result (probe_env_var w u) = Ret (Some s) →
           result (_find_cubemx_executable w) = Ret s)
      ∧ (∀ skipped u later e,
           after = skipped ++ u :: later →
           Forall (λ u, result (probe_env_var w u) = Ret None) skipped →
           result (probe_env_var w u) = Raise e →
           result (_find_cubemx_executable w) = Raise e)
      ∧ (Forall (λ u, result (probe_env_var w u) = Ret None) after →
         (∀ p, which w (exec_name w) = Some p → p ≠ "" →
               result (_find_cubemx_executable w) = Ret p)
         ∧ (∀ p, truthy_opt (which w (exec_name w)) = false →
                 which w "STM32CubeMX" = Some p → p ≠ "" →
                 result (_find_cubemx_executable w) = Ret p)
         ∧ (∀ common,
              truthy_opt (which w (exec_name w)) = false →
              truthy_opt (which w "STM32CubeMX") = false →
              result (common_locations w) = Ret common →
              result (_find_cubemx_executable w) =
                Ret (default "" (str <$> List.find (λ p, present w (str p)) common)))).
Proof.
  intros Hin Hv Hval He Hd Hc.
  pose proof (probe_env_var_empty_dir_run w v val Hv Hval He Hd Hc) as Hrun.
  assert (result (probe_env_var w v) = Ret None) as Hprobe by (by rewrite Hrun).
  split; [exact Hrun|]. split.
  { destruct (later_stages_unset w v Hin) as [Hsearch Hcommon].
    unfold _find_cubemx_executable. rewrite !result_bind.
    rewrite (for_return_result_ext (probe_env_var w)
               (probe_env_var (Hosts.unset v w))).
    - destruct (result (for_return env_vars _)) as [[s|]|e]; [done| |done].
      by rewrite Hsearch, Hcommon.
    - apply Forall_forall. intros u _. destruct (decide (u = v)) as [->|Hne].
      + by rewrite Hprobe, probe_env_var_unset_same.
      + by rewrite probe_env_var_unset_other. }
  intros before after Hvars Hbefore.
  assert (Forall (λ u, result (probe_env_var w u) = Ret None) (before ++ [v]))
    as Hskipped by (apply Forall_app; split; [done|by constructor]).
  destruct (find_cubemx_from_skip w (before ++ [v]) after Hskipped) as [Hr Ht].
  rewrite <- app_assoc in Hr, Ht. simpl in Hr, Ht.
  rewrite find_cubemx_from_env_vars, Hvars, Hr.
  split; [done|]. split.
  { rewrite Ht, flat_map_app. simpl. by rewrite app_nil_r, <- app_assoc. }
  split.
  { intros skipped u later s -> Hs Hu. by apply find_cubemx_from_hit. }
  split.
  { intros skipped u later e -> Hs Hu. by apply find_cubemx_from_raise. }
  intros Hafter. rewrite (find_cubemx_from_miss w after Hafter), result_bind.
  split; [|split].
  - intros p Hfirst Hp. rewrite (search_path_stage_first w p Hfirst Hp). simpl.
    by destruct p.
  - intros p Hfirst Hsecond Hp. rewrite (search_path_stage_second w Hfirst). simpl.
    rewrite Hsecond. by destruct p.
  - intros common Hfirst Hsecond Hcommon.
    rewrite (search_path_stage_second w Hfirst). simpl. rewrite Hsecond.
    by apply common_stage_result.
Qed.

Lemma find_cubemx_env_dir_without_executable_witness :
  probe_env_var host_c10 "STM32CUBEMX_HOME" =
    ([ EExists "/opt/st/empty"; EIsDir "/opt/st/empty";
       EExists "/opt/st/empty/STM32CubeMX"; EExists "/opt/st/empty/STM32CubeMX.exe";
       EExists "/opt/st/empty/STM32CubeMX.app/Contents/MacOS/STM32CubeMX" ],
     Ret None)
  ∧ result (_find_cubemx_executable host_c10) =
    result (_find_cubemx_executable (Hosts.unset "STM32CUBEMX_HOME" host_c10))
  ∧ result (_find_cubemx_executable host_c10) = Ret "/opt/st/cubemx/STM32CubeMX"
  ∧ trace (_find_cubemx_executable host_c10) =
    [ EExists "/opt/st/empty"; EIsDir "/opt/st/empty";
      EExists "/opt/st/empty/STM32CubeMX"; EExists "/opt/st/empty/STM32CubeMX.exe";
      EExists "/opt/st/empty/STM32CubeMX.app/Contents/MacOS/STM32CubeMX";
      EExists "/opt/st/cubemx"; EIsDir "/opt/st/cubemx";
      EExists "/opt/st/cubemx/STM32CubeMX" ].
Proof.
  destruct (find_cubemx_env_dir_without_executable host_c10
              "STM32CUBEMX_HOME" "/opt/st/empty") as (Hrun & Hunset & Hrest).
  - by apply (bool_decide_unpack _).
  - reflexivity.
  - discriminate.
  - reflexivity.
  - reflexivity.
  - repeat constructor.
  - split; [exact Hrun|]. split; [exact Hunset|].
    destruct (Hrest []
                [ "STM32_CUBEMX_HOME"; "STM32_CUBEMX"; "STM32CUBEMX";
                  "STM32_CUBEMX_PATH"; "STM32CUBEMX_PATH" ])
      as (_ & Htrace & Hlater & _); [reflexivity|constructor|].
    split; [|exact Htrace].
    apply (Hlater [ "STM32_CUBEMX_HOME"; "STM32_CUBEMX" ] "STM32CUBEMX"
             [ "STM32_CUBEMX_PATH"; "STM32CUBEMX_PATH" ]).
    + reflexivity.
    + repeat constructor.
    + reflexivity.
Defined.

(** An installation directory holding the [.exe] only. *)
Definition host_dir_exe : World :=
  Hosts.quiet "Linux" {[ "STM32_CUBEMX_HOME" := "/opt/st/cubemx" ]}
    [ "/opt/st/cubemx/STM32CubeMX.exe" ] [ "/opt/st/cubemx" ] "".

(** X1.  A candidate variable that names an existing directory makes the
    locator return the first of the three names inside it that exists (the
    bare name, then the [.exe], then the binary of the application bundle),
    when no variable before it produced a result.  The names after the hit
    are not tried, and neither the search path nor a conventional location
    is consulted. *)
Theorem find_cubemx_env_directory `{F : PathFlavour} (w : World)
    (before after : list string) (v val : string)
    (skipped rest : list path) (c : path) :
  env_vars = before ++ v :: after →
  Forall (λ u, result (probe_env_var w u) = Ret None) before →
  environ w !! v = Some val →
  val ≠ "" →
  exists_at w (str (Path val)) = Ret true →
  is_dir_at w (str (Path val)) = Ret true →
  candidates_in (Path val) = skipped ++ c :: rest →
  Forall (λ d, exists_at w (str d) = Ret false) skipped →
  exists_at w (str c) = Ret true →
  result (_find_cubemx_executable w) = Ret (str c)
  ∧ trace (_find_cubemx_executable w) =
    flat_map (λ u, trace (probe_env_var w u)) before
    ++ [EExists (str (Path val)); EIsDir (str (Path val))]
    ++ map (λ d, EExists (str d)) (skipped ++ [c]).
Proof.
  intros Hvars Hbefore Hv Hval He Hd Hcands Hskipped Hc.
  destruct (probe_env_var_directory w v val skipped c rest
              Hv Hval He Hd Hcands Hskipped Hc) as [Hr Ht].
  destruct (find_cubemx_first_env_result w before v after (str c)
              Hvars Hbefore Hr) as [Hr' Ht'].
  split; [done|]. rewrite Ht', flat_map_app. simpl. by rewrite Ht, app_nil_r.
Qed.

Lemma find_cubemx_env_directory_witness :
  result (_find_cubemx_executable host_dir_exe) = Ret "/opt/st/cubemx/STM32CubeMX.exe"
  ∧ trace (_find_cubemx_executable host_dir_exe) =
    [ EExists "/opt/st/cubemx"; EIsDir "/opt/st/cubemx";
      EExists "/opt/st/cubemx/STM32CubeMX"; EExists "/opt/st/cubemx/STM32CubeMX.exe" ].
Proof.
  destruct (find_cubemx_env_directory host_dir_exe
           ["STM32CUBEMX_HOME"]
           ["STM32_CUBEMX"; "STM32CUBEMX"; "STM32_CUBEMX_PATH"; "STM32CUBEMX_PATH"]
           "STM32_CUBEMX_HOME" "/opt/st/cubemx"
           [Path "/opt/st/cubemx" // "STM32CubeMX"]
           [Path "/opt/st/cubemx" // "STM32CubeMX.app" // "Contents" // "MacOS" // "STM32CubeMX"]
           (Path "/opt/st/cubemx" // "STM32CubeMX.exe")) as [Hr Ht].
  - reflexivity.
  - repeat constructor.
  - reflexivity.
  - discriminate.
  - reflexivity.
  - reflexivity.
  - reflexivity.
  - repeat constructor.
  - reflexivity.
  - split; [exact Hr | exact Ht].
Defined.

(** The generator is on the search path under its generic name only. *)
Definition host_on_path : World := {|
  my_os := "Windows";
  environ := {[ "STM32CUBEMX" := "" ]};
  module_file := "C:/stm32pio/stm32pio/core/settings.py";
  home := Raise RuntimeError;
  which := λ name,
    if String.eqb name "STM32CubeMX" then Some "C:\tools\STM32CubeMX.BAT" else None;
  exists_at := λ _, Raise PermissionError;
  is_dir_at := λ _, Raise PermissionError;
  access_x := λ _, Raise PermissionError;
  text_at := λ _, Raise PermissionError;
|}.

(** X2.  When the variables give nothing, a hit on the search path is
    returned as [shutil.which] gave it: the name with [.exe] on Windows is
    looked up first, the generic name [STM32CubeMX] only if that gave
    nothing.  After the variables' probes the locator touches nothing but
    the search path: the home directory and the conventional locations are
    not looked at. *)
Theorem find_cubemx_search_path `{F : PathFlavour} (w : World) (p : string) :
  Forall (λ u, result (probe_env_var w u) = Ret None) env_vars →
  p ≠ "" →
  (which w (exec_name w) = Some p →
     result (_find_cubemx_executable w) = Ret p
     ∧ trace (_find_cubemx_executable w) =
       flat_map (λ u, trace (probe_env_var w u)) env_vars
       ++ [EWhich (exec_name w)])
  ∧ (truthy_opt (which w (exec_name w)) = false →
     which w "STM32CubeMX" = Some p →
     result (_find_cubemx_executable w) = Ret p
     ∧ trace (_find_cubemx_executable w) =
       flat_map (λ u, trace (probe_env_var w u)) env_vars
       ++ [EWhich (exec_name w); EWhich "STM32CubeMX"]).
Proof.
  intros Henv Hp. destruct (find_cubemx_after_env w Henv) as [Hr Ht].
  rewrite Hr, Ht, result_bind, trace_bind. split.
  - intros Hfirst. rewrite (search_path_stage_first w p Hfirst Hp). simpl.
    destruct p; [done|]. simpl. by rewrite app_nil_r.
  - intros Hfirst Hsecond. rewrite (search_path_stage_second w Hfirst). simpl.
    rewrite Hsecond. destruct p; [done|]. simpl. by rewrite app_nil_r.
Qed.

Lemma find_cubemx_search_path_witness :
  result (_find_cubemx_executable (F:=windows) host_on_path)
    = Ret "C:\tools\STM32CubeMX.BAT"
  ∧ trace (_find_cubemx_executable (F:=windows) host_on_path) =
    [EWhich "STM32CubeMX.exe"; EWhich "STM32CubeMX"].
Proof.
  destruct (find_cubemx_search_path (F:=windows) host_on_path
              "C:\tools\STM32CubeMX.BAT") as [_ Hsecond].
  - repeat constructor.
  - discriminate.
  - destruct Hsecond as [Hr Ht]; [reflexivity|reflexivity|].
    split; [exact Hr | exact Ht].
Defined.

(** A Windows host without [LOCALAPPDATA], started in a directory below
    which [Programs\STM32CubeMX\STM32CubeMX.exe] exists; looking at the
    first conventional location is refused. *)
Definition host_windows_cwd : World :=
  Hosts.guarded
    "C:\Program Files\STMicroelectronics\STM32Cube\STM32CubeMX\STM32CubeMX.exe"
    (Hosts.quiet "Windows" ∅ [ "Programs\STM32CubeMX\STM32CubeMX.exe" ] [] "").

(** X3.  When neither the variables nor the search path give anything and
    the conventional locations of the platform are known (always, except
    on a Linux host whose home directory cannot be determined), the locator
    does not raise: it returns the first conventional location that
    exists, a location whose probe raises counting as absent, and the empty
    string exactly when none exists.  A platform other than the three has
    no conventional location. *)
Theorem find_cubemx_conventional `{F : PathFlavour} (w : World) :
  Forall (λ u, result (probe_env_var w u) = Ret None) env_vars →
  truthy_opt (which w (exec_name w)) = false →
  truthy_opt (which w "STM32CubeMX") = false →
  (my_os w = "Linux" → ∃ h, home w = Ret h) →
  ∃ common,
    result (common_locations w) = Ret common
    ∧ (my_os w ∉ supported_os → common = [])
    ∧ result (_find_cubemx_executable w) =
        Ret (default "" (str <$> List.find (λ p, present w (str p)) common))
    ∧ (result (_find_cubemx_executable w) = Ret "" ↔
       Forall (λ p, present w (str p) = false) common).
Proof.
  intros Henv Hfirst Hsecond Hhome.
  destruct (common_locations_total w Hhome) as (common & Hcommon & Hnone).
  exists common. split; [done|]. split; [done|].
  destruct (find_cubemx_after_env w Henv) as [Hr _].
  assert (result (_find_cubemx_executable w) =
          Ret (default "" (str <$> List.find (λ p, present w (str p)) common)))
    as Hresult.
  { rewrite Hr, result_bind, (search_path_stage_second w Hfirst). simpl.
    rewrite Hsecond. by apply common_stage_result. }
  split; [done|]. rewrite Hresult.
  destruct (List.find _ _) as [c|] eqn:Hfind; simpl.
  - split.
    + intros [=Hstr]. by destruct (str_nonempty c).
    + intros Hall. apply find_some in Hfind as [Hin Hc].
      rewrite Forall_forall in Hall.
      apply list_elem_of_In, Hall in Hin. congruence.
  - split; [|done]. intros _. apply Forall_forall. intros c Hin.
    apply list_elem_of_In in Hin. by apply (find_none _ _ Hfind).
Qed.

Lemma find_cubemx_conventional_witness :
  result (_find_cubemx_executable host_denied_common) = Ret "/usr/bin/STM32CubeMX".
Proof.
  destruct (find_cubemx_conventional host_denied_common)
    as (common & Hcommon & _ & Hr & _).
  - repeat constructor.
  - reflexivity.
  - reflexivity.
  - intros _. by eexists.
  - injection Hcommon as <-. exact Hr.
Defined.

(** X4.  On Windows the fourth conventional location is built from
    [LOCALAPPDATA]; with that variable unset or empty it is the relative
    path [Programs\STM32CubeMX\STM32CubeMX.exe], looked up from the current
    directory, and when it is the first location that exists the locator
    returns this relative path. *)
Theorem find_cubemx_windows_without_localappdata (w : World) :
  my_os w = "Windows" →
  Forall (λ u, result (probe_env_var (F:=windows) w u) = Ret None) env_vars →
  truthy_opt (which w "STM32CubeMX.exe") = false →
  truthy_opt (which w "STM32CubeMX") = false →
  environ_get w "LOCALAPPDATA" "" = "" →
  present w "C:\Program Files\STMicroelectronics\STM32Cube\STM32CubeMX\STM32CubeMX.exe" = false →
  present w "C:\Program Files (x86)\STMicroelectronics\STM32Cube\STM32CubeMX\STM32CubeMX.exe" = false →
  present w "C:\Program Files\STMicroelectronics\STM32CubeMX\STM32CubeMX.exe" = false →
  exists_at w "Programs\STM32CubeMX\STM32CubeMX.exe" = Ret true →
  result (_find_cubemx_executable (F:=windows) w) =
    Ret "Programs\STM32CubeMX\STM32CubeMX.exe".
Proof.
  intros Hos Henv Hfirst Hsecond Hlocal H1 H2 H3 H4.
  destruct (find_cubemx_after_env (F:=windows) w Henv) as [Hr _].
  assert (exec_name w = "STM32CubeMX.exe") as Hname
    by (unfold exec_name; by rewrite Hos).
  rewrite <- Hname in Hfirst.
  rewrite Hr, result_bind, (search_path_stage_second w Hfirst).
  simpl. rewrite Hsecond.
  rewrite (common_stage_result (F:=windows) w
             [ Path "C:/Program Files/STMicroelectronics/STM32Cube/STM32CubeMX/STM32CubeMX.exe";
               Path "C:/Program Files (x86)/STMicroelectronics/STM32Cube/STM32CubeMX/STM32CubeMX.exe";
               Path "C:/Program Files/STMicroelectronics/STM32CubeMX/STM32CubeMX.exe";
               Path "" // "Programs" // "STM32CubeMX" // "STM32CubeMX.exe" ]).
  - change "C:\Program Files\STMicroelectronics\STM32Cube\STM32CubeMX\STM32CubeMX.exe"
      with (@str windows (@Path windows "C:/Program Files/STMicroelectronics/STM32Cube/STM32CubeMX/STM32CubeMX.exe"))
      in H1.
    change "C:\Program Files (x86)\STMicroelectronics\STM32Cube\STM32CubeMX\STM32CubeMX.exe"
      with (@str windows (@Path windows "C:/Program Files (x86)/STMicroelectronics/STM32Cube/STM32CubeMX/STM32CubeMX.exe"))
      in H2.
    change "C:\Program Files\STMicroelectronics\STM32CubeMX\STM32CubeMX.exe"
      with (@str windows (@Path windows "C:/Program Files/STMicroelectronics/STM32CubeMX/STM32CubeMX.exe"))
      in H3.
    change "Programs\STM32CubeMX\STM32CubeMX.exe"
      with (@str windows (@joinpath windows (@joinpath windows (@joinpath windows
              (@Path windows "") "Programs") "STM32CubeMX") "STM32CubeMX.exe"))
      in H4.
    cbn [List.find]. rewrite H1, H2, H3. unfold present. rewrite H4. reflexivity.
  - unfold common_locations. rewrite Hos, Hlocal. reflexivity.
Qed.

Lemma find_cubemx_windows_without_localappdata_witness :
  result (_find_cubemx_executable (F:=windows) host_windows_cwd) =
    Ret "Programs\STM32CubeMX\STM32CubeMX.exe".
Proof.
  apply (find_cubemx_windows_without_localappdata host_windows_cwd);
    first [reflexivity | repeat constructor].
Defined.

(** ** Where exceptions come from *)

Section Raises.

Context `{F : PathFlavour}.
Variable w : World.

(** The probes of one variable: its path, then the names inside it. *)
Definition env_probe_raises (val : string) (e : exn) : Prop :=
  exists_at w (str (Path val)) = Raise e
  ∨ (exists_at w (str (Path val)) = Ret true
     ∧ (is_dir_at w (str (Path val)) = Raise e
        ∨ (is_dir_at w (str (Path val)) = Ret true
           ∧ ∃ c, c ∈ candidates_in (Path val) ∧ exists_at w (str c) = Raise e))).

Lemma probe_env_var_raise_inv v e :
  result (probe_env_var w v) = Raise e →
  ∃ val, environ w !! v = Some val ∧ val ≠ "" ∧ env_probe_raises val e.
Proof.
  unfold probe_env_var, env_probe_raises.
  destruct (environ w !! v) as [val|]; [|done].
  destruct val as [|a val]; [done|]. simpl negb. cbv iota.
  intros Hr. exists (String a val). split; [done|]. split; [done|].
  rewrite result_bind in Hr. unfold exists_ at 1 in Hr. simpl in Hr.
  destruct (exists_at w (str (Path (String a val)))) as [[|]|e']; [|done|].
  - right. split; [done|].
    rewrite result_bind in Hr. unfold is_dir in Hr. simpl in Hr.
    destruct (is_dir_at w (str (Path (String a val)))) as [[|]|e']; [|done|].
    + right. split; [done|].
      apply for_return_raise_inv in Hr as (c & Hin & Hc). exists c. split; [done|].
      rewrite result_bind in Hc. unfold exists_ in Hc. simpl in Hc.
      revert Hc. destruct (exists_at w (str c)) as [[|]|e']; congruence.
    + left. congruence.
  - left. congruence.
Qed.

Lemma search_path_stage_total :
  ∃ r, result (search_path_stage w) = Ret r.
Proof.
  unfold search_path_stage. rewrite result_bind. simpl.
  destruct (truthy_opt _); by eexists.
Qed.

Lemma common_stage_raise_inv e :
  result (common_stage w) = Raise e → my_os w = "Linux" ∧ home w = Raise e.
Proof.
  destruct (decide (my_os w = "Linux")) as [Hos|Hos].
  - destruct (home w) as [h|e'] eqn:Hh.
    + destruct (common_locations_total w) as (common & Hc & _); [by eexists|].
      by rewrite (common_stage_result w common Hc).
    + unfold common_stage, common_locations. rewrite Hos. simpl.
      rewrite !result_bind. unfold Path_home. rewrite result_bind. simpl.
      rewrite Hh. by intros [= ->].
  - destruct (common_locations_total w) as (common & Hc & _); [done|].
    by rewrite (common_stage_result w common Hc).
Qed.

Lemma find_cubemx_raise_inv e :
  result (_find_cubemx_executable w) = Raise e →
  (∃ v, v ∈ env_vars ∧ result (probe_env_var w v) = Raise e)
  ∨ (my_os w = "Linux" ∧ home w = Raise e).
Proof.
  unfold _find_cubemx_executable. rewrite result_bind.
  destruct (result (for_return env_vars _)) as [[s|]|e'] eqn:Henv; [done| |].
  - rewrite result_bind. destruct search_path_stage_total as [r ->].
    destruct (truthy_opt r); [done|]. intros Hc. right.
    by apply common_stage_raise_inv.
  - intros [= ->]. left. by apply for_return_raise_inv.
Qed.

(** The detection raises only where the locator does: the previous default
    of Linux asks for a home directory that the locator has already got. *)
Lemma detected_cubemx_raise_inv e :
  result (_detected_cubemx w) = Raise e →
  result (_find_cubemx_executable w) = Raise e.
Proof.
  unfold _detected_cubemx. rewrite result_bind.
  destruct (result (_find_cubemx_executable w)) as [found|e'] eqn:Hfound; [|done].
  destruct found as [|a s]; [|done]. simpl. unfold str_eq.
  destruct (String.eqb_spec (my_os w) "Darwin"); [done|].
  destruct (String.eqb_spec (my_os w) "Linux") as [Hos|]; [|by destruct (String.eqb _ _)].
  destruct (find_cubemx_empty_home w Hfound Hos) as [h Hh].
  rewrite result_bind. unfold Path_home. rewrite result_bind. simpl. by rewrite Hh.
Qed.

Lemma config_default_raise_inv e :
  result (config_default w) = Raise e →
  result (_find_cubemx_executable w) = Raise e.
Proof.
  unfold config_default. rewrite result_bind.
  destruct (result (_detected_cubemx w)) as [cubemx|e'] eqn:Hc.
  - rewrite result_bind. by destruct (detected_java_total w cubemx) as [java ->].
  - intros [= ->]. by apply detected_cubemx_raise_inv.
Qed.

Lemma patch_mixin_raise_inv e :
  result (patch_mixin w) = Raise e →
  ∃ test_case,
    TEST_CASE w = Some test_case
    ∧ (exists_at w (str (platformio_ini_lockfile w test_case)) = Raise e
       ∨ (exists_at w (str (platformio_ini_lockfile w test_case)) = Ret true
          ∧ text_at w (str (platformio_ini_lockfile w test_case)) = Raise e)).
Proof.
  unfold patch_mixin. destruct (TEST_CASE w) as [test_case|]; [|done].
  intros Hr. exists test_case. split; [done|].
  rewrite result_bind in Hr. unfold exists_ in Hr. simpl in Hr.
  destruct (exists_at w _) as [[|]|e']; [|done|left; congruence].
  right. split; [done|]. rewrite result_bind in Hr. unfold read_text in Hr.
  simpl in Hr. destruct (text_at w _) as [text|e']; [done|congruence].
Qed.

End Raises.

(** X5.  An exception leaves the locator only from the unguarded probes of
    a candidate variable that is set to a non-empty value ([exists()] on
    its path, [is_dir()] on it, [exists()] on a name inside it), or, on
    Linux, from [Path.home()] when the conventional locations are listed.
    The search-path lookup and the probes of the conventional locations
    never make it raise. *)
Theorem find_cubemx_raises_only `{F : PathFlavour} (w : World) (e : exn) :
  result (_find_cubemx_executable w) = Raise e →
  (∃ v val,
     v ∈ env_vars ∧ environ w !! v = Some val ∧ val ≠ ""
     ∧ env_probe_raises w val e)
  ∨ (my_os w = "Linux" ∧ home w = Raise e).
Proof.
  intros Hr. destruct (find_cubemx_raise_inv w e Hr) as [(v & Hin & Hv)|Hhome].
  - left. destruct (probe_env_var_raise_inv w v e Hv) as (val & ? & ? & ?).
    by exists v, val.
  - by right.
Qed.

Lemma find_cubemx_raises_only_witness :
  (∃ v val,
     v ∈ env_vars ∧ environ host_denied !! v = Some val ∧ val ≠ ""
     ∧ env_probe_raises host_denied val PermissionError)
  ∨ (my_os host_denied = "Linux" ∧ home host_denied = Raise PermissionError).
Proof. apply (find_cubemx_raises_only host_denied PermissionError). reflexivity. Defined.

(** A Linux host on which no probe answers and nothing is set. *)
Definition host_hostile : World := {|
  my_os := "Linux";
  environ := {[ "STM32CUBEMX_HOME" := ""; "PATH" := "/usr/bin" ]};
  module_file := "/opt/stm32pio/stm32pio/core/settings.py";
  home := Ret "/home/dev";
  which := λ _, None;
  exists_at := λ _, Raise PermissionError;
  is_dir_at := λ _, Raise PermissionError;
  access_x := λ _, Raise PermissionError;
  text_at := λ _, Raise PermissionError;
|}.

(** X6.  Outside continuous integration, with every candidate variable
    unset or empty and, on Linux, a home directory that can be determined,
    the module loads whatever the filesystem and the search path answer:
    no probe of the conventional locations or of the runtime's candidates
    can make it raise. *)
Theorem settings_loads_without_variables `{F : PathFlavour} (w : World) :
  (∀ v, v ∈ env_vars → environ_get w v "" = "") →
  (my_os w = "Linux" → ∃ h, home w = Ret h) →
  CI_ENV_VARIABLE w = None →
  ∃ cfg, result (settings w) = Ret cfg
         ∧ result (config_default w) = Ret cfg.
Proof.
  intros Hunset Hhome Hci. rewrite settings_without_ci by done.
  destruct (result (config_default w)) as [cfg|e] eqn:Hcfg; [by exists cfg|].
  apply config_default_raise_inv, find_cubemx_raise_inv in Hcfg.
  destruct Hcfg as [(v & Hin & Hprobe)|[Hos Hh]].
  - apply probe_env_var_raise_inv in Hprobe as (val & Hv & Hval & _).
    specialize (Hunset v Hin). unfold environ_get in Hunset.
    rewrite Hv in Hunset. done.
  - destruct (Hhome Hos) as [h Hh']. congruence.
Qed.

Lemma settings_loads_without_variables_witness :
  ∃ cfg, result (settings host_hostile) = Ret cfg.
Proof.
  destruct (settings_loads_without_variables host_hostile) as (cfg & Hcfg & _).
  - intros v Hin. unfold env_vars in Hin.
    repeat (apply elem_of_cons in Hin as [->|Hin]; [reflexivity|]).
    by apply elem_of_nil in Hin.
  - intros _. by eexists.
  - reflexivity.
  - by exists cfg.
Defined.

(** X7.  What can end the loading of the module with an exception: the
    locator (see X5); or, under continuous integration and after
    [config_default] was built, the missing cache-folder variable (a
    [TypeError]) or the unguarded [exists()] and [read_text()] on the lock
    file of the test case.  Nothing else raises: not the runtime locator,
    not the fallbacks, not the update of the patch. *)
Theorem settings_raises_only `{F : PathFlavour} (w : World) (e : exn) :
  result (settings w) = Raise e →
  result (_find_cubemx_executable w) = Raise e
  ∨ (∃ marker cfg,
       CI_ENV_VARIABLE w = Some marker
       ∧ result (config_default w) = Ret cfg
       ∧ ((environ w !! "STM32PIO_CUBEMX_CACHE_FOLDER" = None ∧ e = TypeError)
          ∨ ∃ test_case,
              environ w !! "STM32PIO_TEST_CASE" = Some test_case
              ∧ (exists_at w (str (platformio_ini_lockfile w test_case)) = Raise e
                 ∨ (exists_at w (str (platformio_ini_lockfile w test_case)) = Ret true
                    ∧ text_at w (str (platformio_ini_lockfile w test_case)) = Raise e)))).
Proof.
  unfold settings. rewrite result_bind.
  destruct (result (config_default w)) as [cfg|e'] eqn:Hcfg.
  - intros Hr. right. unfold ci_override in Hr.
    destruct (CI_ENV_VARIABLE w) as [marker|] eqn:Hci; [|done].
    exists marker, cfg. split; [done|]. split; [done|].
    unfold Path_of_environ in Hr.
    destruct (environ w !! "STM32PIO_CUBEMX_CACHE_FOLDER") as [cache|].
    + right. rewrite bind_ret_l, result_bind in Hr.
      destruct (result (patch_mixin w)) as [mixin|e''] eqn:Hmixin.
      * rewrite result_bind in Hr. unfold append_patch in Hr. simpl in Hr.
        rewrite (config_default_project w cfg Hcfg), default_project_patch in Hr.
        done.
      * injection Hr as ->. by apply patch_mixin_raise_inv.
    + left. split; [done|]. by injection Hr.
  - intros [= ->]. left. by apply config_default_raise_inv.
Qed.

(** An agent on which the lock file of the test case is a directory. *)
Definition host_ci_lock_dir : World :=
  Hosts.quiet "Linux"
    (<["STM32PIO_TEST_CASE" := "nucleo_f031k6"]> ci_environ)
    [] [ fixture_lockfile ] "".

Lemma settings_raises_only_witness :
  result (settings host_ci_lock_dir) = Raise IsADirectoryError
  ∧ text_at host_ci_lock_dir fixture_lockfile = Raise IsADirectoryError.
Proof.
  assert (result (settings host_ci_lock_dir) = Raise IsADirectoryError) as Hr
    by reflexivity.
  split; [exact Hr|].
  destruct (settings_raises_only host_ci_lock_dir IsADirectoryError Hr)
    as [Hlocator|(marker & cfg & _ & _ & [[Hcache _]|Hlock])].
  - discriminate Hlocator.
  - discriminate Hcache.
  - destruct Hlock as (test_case & Hcase & [He|[_ Ht]]).
    + injection Hcase as <-. discriminate He.
    + injection Hcase as <-. exact Ht.
Defined.

(** ** What [config_default] holds *)

Section Shape.

Context `{F : PathFlavour}.
Variable w : World.

(** The fallback of the runtime is a non-empty text on every platform. *)
Lemma detected_java_inv cubemx java :
  result (_detected_java w cubemx) = Ret java → java ≠ "".
Proof.
  unfold _detected_java. rewrite result_bind.
  destruct (find_java_total w cubemx) as [found ->].
  destruct found as [|a s]; simpl; [|by intros [= <-]].
  intros [= <-]. by destruct (str_eq _ _).
Qed.

Lemma detected_cubemx_inv cubemx :
  result (_detected_cubemx w) = Ret cubemx →
  cubemx = "" → my_os w ∉ supported_os.
Proof.
  unfold _detected_cubemx. rewrite result_bind.
  destruct (result (_find_cubemx_executable w)) as [found|e]; [|done].
  destruct found as [|a s]; simpl; [|by intros [= <-]]. unfold str_eq.
  destruct (String.eqb_spec (my_os w) "Darwin") as [|Hdarwin]; [by intros [= <-]|].
  destruct (String.eqb_spec (my_os w) "Linux") as [|Hlinux].
  { rewrite result_bind. unfold Path_home. rewrite result_bind. simpl.
    destruct (home w) as [h|e']; [|done]. simpl. intros [= <-] Hempty.
    by destruct (str_nonempty (Path h // "STM32CubeMX/STM32CubeMX")). }
  destruct (String.eqb_spec (my_os w) "Windows") as [|Hwindows]; [by intros [= <-]|].
  intros _ _. rewrite elem_of_supported_os. tauto.
Qed.

Lemma config_default_inv cfg :
  result (config_default w) = Ret cfg →
  ∃ cubemx java,
    cfg = {| app := default_app cubemx java; project := default_project |}
    ∧ result (_detected_cubemx w) = Ret cubemx
    ∧ result (_detected_java w cubemx) = Ret java.
Proof.
  unfold config_default. rewrite result_bind.
  destruct (result (_detected_cubemx w)) as [cubemx|e]; [|done].
  rewrite result_bind.
  destruct (result (_detected_java w cubemx)) as [java|e] eqn:Hj; [|done].
  intros [= <-]. by exists cubemx, java.
Qed.

Lemma dom_default_app cubemx java :
  dom (default_app cubemx java) = {["platformio_cmd"; "cubemx_cmd"; "java_cmd"]}.
Proof. unfold default_app. rewrite !dom_insert_L, dom_empty_L. set_solver. Qed.

Lemma dom_ci_app cache :
  dom (ci_app cache) = {["platformio_cmd"; "cubemx_cmd"; "java_cmd"]}.
Proof. unfold ci_app. rewrite !dom_insert_L, dom_empty_L. set_solver. Qed.

End Shape.

(** A generator with its bundled runtime, named by a variable. *)
Definition host_bundled : World :=
  Hosts.quiet "Darwin" {[ "STM32CUBEMX_PATH" := "/opt/st/cubemx/STM32CubeMX" ]}
    [ "/opt/st/cubemx/STM32CubeMX"; "/opt/st/cubemx/jre/bin/java" ]
    [ "/opt/st/cubemx"; "/opt/st/cubemx/jre"; "/opt/st/cubemx/jre/bin" ] "".

(** X8.  When the locator finds the generator, [config_default] is built
    with that path as [cubemx_cmd] (no fallback is consulted) and with, as
    [java_cmd], the first candidate next to it that exists and may be
    executed, the first of them being [jre/bin/java] ([java.exe] on
    Windows) in the directory of the generator; without such a candidate
    [java_cmd] is the fallback of the platform. *)
Theorem config_default_found `{F : PathFlavour} (w : World) (found : string) :
  result (_find_cubemx_executable w) = Ret found →
  found ≠ "" →
  ∃ java,
    result (config_default w) =
      Ret {| app := default_app found java; project := default_project |}
    ∧ (usable w (str (parent (Path found) // "jre" // "bin"
                        // (if str_eq (my_os w) "Windows" then "java.exe" else "java")))
         = true →
       java = str (parent (Path found) // "jre" // "bin"
                     // (if str_eq (my_os w) "Windows" then "java.exe" else "java")))
    ∧ (∀ c, List.find (λ c, usable w (str c)) (java_candidates w found) = Some c →
            java = str c)
    ∧ (List.find (λ c, usable w (str c)) (java_candidates w found) = None →
       java = if str_eq (my_os w) "Windows"
              then "C:/Program Files/STMicroelectronics/STM32Cube/STM32CubeMX/jre/bin/java.exe"
              else "None").
Proof.
  intros Hfound Hne.
  assert (result (_detected_cubemx w) = Ret found) as Hc.
  { unfold _detected_cubemx. rewrite result_bind, Hfound. by destruct found. }
  pose proof (find_java_result w found Hne) as Hjava.
  destruct (detected_java_total w found) as [java Hj]. exists java.
  split; [by apply config_default_result|].
  unfold _detected_java in Hj. rewrite result_bind, Hjava in Hj.
  assert (∀ c, List.find (λ c, usable w (str c)) (java_candidates w found) = Some c →
               java = str c) as Hsome.
  { intros c Hfind. rewrite Hfind in Hj. simpl in Hj.
    destruct (str c) as [|a s] eqn:Hstr; [by destruct (str_nonempty c)|].
    simpl in Hj. congruence. }
  split; [|split; [done|]].
  - intros Hfirst. apply Hsome. unfold java_candidates. simpl. by rewrite Hfirst.
  - intros Hfind. rewrite Hfind in Hj. simpl in Hj. congruence.
Qed.

Lemma config_default_found_witness :
  ∃ cfg,
    result (config_default host_bundled) = Ret cfg
    ∧ app cfg !! "cubemx_cmd" = Some "/opt/st/cubemx/STM32CubeMX"
    ∧ app cfg !! "java_cmd" = Some "/opt/st/cubemx/jre/bin/java".
Proof.
  destruct (config_default_found host_bundled "/opt/st/cubemx/STM32CubeMX")
    as (java & Hcfg & Hfirst & _); [reflexivity|discriminate|].
  rewrite (Hfirst eq_refl) in Hcfg. eexists. split; [exact Hcfg|].
  split; reflexivity.
Defined.

(** X9.  Whatever the host, a configuration that the module loads has an
    [app] section with exactly the three keys [platformio_cmd],
    [cubemx_cmd] and [java_cmd]; [platformio_cmd] is [platformio];
    [java_cmd] is never empty; [cubemx_cmd] is empty only outside
    continuous integration on a platform other than the three.  Its
    [project] section has the keys of the default one, with the default
    values but for [platformio_ini_patch_content], which starts with the
    default template. *)
Theorem settings_shape `{F : PathFlavour} (w : World) (cfg : config) :
  result (settings w) = Ret cfg →
  dom (app cfg) = {["platformio_cmd"; "cubemx_cmd"; "java_cmd"]}
  ∧ app cfg !! "platformio_cmd" = Some "platformio"
  ∧ (∃ java, app cfg !! "java_cmd" = Some java ∧ java ≠ "")
  ∧ (∃ cubemx,
       app cfg !! "cubemx_cmd" = Some cubemx
       ∧ (cubemx = "" → CI_ENV_VARIABLE w = None ∧ my_os w ∉ supported_os))
  ∧ dom (project cfg) = dom default_project
  ∧ (∀ key, key ≠ "platformio_ini_patch_content" →
            project cfg !! key = default_project !! key)
  ∧ ∃ mixin,
      project cfg !! "platformio_ini_patch_content" =
        Some (VStr (platformio_ini_patch_content +:+ mixin)).
Proof.
  intros Hr. destruct (settings_inv w cfg Hr) as (cfg0 & Hcfg0 & Hover).
  destruct (config_default_inv w cfg0 Hcfg0) as (cubemx & java & -> & Hc & Hj).
  destruct (CI_ENV_VARIABLE w) as [marker|] eqn:Hci.
  - destruct (ci_override_inv w marker _ cfg Hci Hover)
      as (cache & mixin & before & _ & _ & Hbefore & ->).
    simpl in Hbefore. rewrite default_project_patch in Hbefore.
    injection Hbefore as <-. cbn [app project].
    destruct (ci_app_lookup (Path cache)) as (Hp & Hcmd & Hjava).
    split; [apply dom_ci_app|]. split; [done|].
    split; [by exists "java"|]. split.
    { eexists. split; [exact Hcmd|]. intros Hempty.
      by destruct (str_nonempty (Path cache // "STM32CubeMX.exe")). }
    split.
    { rewrite dom_insert_L.
      assert ("platformio_ini_patch_content" ∈ dom default_project)
        by (apply elem_of_dom; rewrite default_project_patch; by eexists).
      set_solver. }
    split; [intros key Hkey; by rewrite lookup_insert_ne|].
    exists mixin. by rewrite lookup_insert_eq.
  - rewrite (ci_override_absent w _ Hci) in Hover. injection Hover as <-.
    cbn [app project].
    destruct (default_app_lookup cubemx java) as (Hp & Hcmd & Hjava).
    split; [apply dom_default_app|]. split; [done|].
    split; [exists java; split; [done|by apply (detected_java_inv w cubemx)]|].
    split.
    { exists cubemx. split; [done|]. intros Hempty. split; [done|].
      by apply (detected_cubemx_inv w cubemx). }
    split; [done|]. split; [done|].
    exists "". by rewrite default_project_patch, append_empty_r.
Qed.

Lemma settings_shape_witness :
  ∃ cfg,
    result (settings host_ci_fixture) = Ret cfg
    ∧ dom (app cfg) = {["platformio_cmd"; "cubemx_cmd"; "java_cmd"]}
    ∧ project cfg !! "inspect_ioc" = Some (VBool true).
Proof.
  eexists. split; [reflexivity|].
  edestruct (settings_shape host_ci_fixture) as (Hdom & _ & _ & _ & _ & Hkeys & _);
    [reflexivity|].
  split; [exact Hdom|]. rewrite Hkeys; [reflexivity|discriminate].
Defined.

(** ** What the module touches *)

(** Every access of a computation satisfies [P]. *)
Definition only {A} (P : event → Prop) (m : M A) : Prop := Forall P (trace m).

Section Only.

Context (P : event → Prop).

Lemma only_ret {A} (a : A) : only P (ret a).
Proof. constructor. Qed.

Lemma only_raise {A} (e : exn) : only P (raise (A:=A) e).
Proof. constructor. Qed.

Lemma only_perform {A} (ev : event) (r : outcome A) : P ev → only P (perform ev r).
Proof. intros Hev. by repeat constructor. Qed.

Lemma only_bind {A B} (m : M A) (k : A → M B) :
  only P m → (∀ a, result m = Ret a → only P (k a)) → only P (bind m k).
Proof.
  unfold only. intros Hm Hk. rewrite trace_bind. apply Forall_app. split; [done|].
  destruct (result m) as [a|e]; [by apply Hk|constructor].
Qed.

Lemma only_try_except {A} (m h : M A) :
  only P m → only P h → only P (try_except m h).
Proof.
  unfold only, try_except. destruct m as [t [a|e]]; simpl; [done|].
  destruct h as [t' r]. simpl. intros Hm Hh. apply Forall_app. by split.
Qed.

Lemma only_for_return {A B} (body : A → M (option B)) (xs : list A) :
  (∀ x, x ∈ xs → only P (body x)) → only P (for_return xs body).
Proof.
  induction xs as [|x xs IH]; intros Hbody; [constructor|].
  rewrite for_return_cons. apply only_bind; [apply Hbody; left|].
  intros [b|] _; [apply only_ret|]. apply IH. intros y Hy. apply Hbody. by right.
Qed.

End Only.

Lemma only_weaken {A} (P Q : event → Prop) (m : M A) :
  (∀ ev, P ev → Q ev) → only P m → only Q m.
Proof. intros HPQ Hm. unfold only in *. by eapply Forall_impl. Qed.

#[global] Instance event_eq_dec : EqDecision event.
Proof. solve_decision. Defined.

(** An access that reads no file content. *)
Definition no_read (ev : event) : Prop :=
  match ev with EReadText _ => False | _ => True end.

Section Touches.

Context `{F : PathFlavour}.
Variable w : World.

(** An access of the runtime locator: a look at one of its candidates, or
    a test of its permissions once it was seen to exist. *)
Definition java_access (cubemx_path : string) (ev : event) : Prop :=
  ∃ c, c ∈ java_candidates w cubemx_path
       ∧ (ev = EExists (str c)
          ∨ (ev = EAccess (str c) ∧ exists_at w (str c) = Ret true)).

(** A read of the lock file of the test case, under continuous
    integration and once it was seen to exist. *)
Definition lockfile_read (ev : event) : Prop :=
  ∀ p, ev = EReadText p →
       is_Some (CI_ENV_VARIABLE w)
       ∧ ∃ test_case,
           environ w !! "STM32PIO_TEST_CASE" = Some test_case
           ∧ p = str (platformio_ini_lockfile w test_case)
           ∧ exists_at w p = Ret true.

Lemma only_exists_ (P : event → Prop) (p : path) :
  P (EExists (str p)) → only P (exists_ w p).
Proof. apply only_perform. Qed.

Lemma find_cubemx_no_read : only no_read (_find_cubemx_executable w).
Proof.
  unfold _find_cubemx_executable. apply only_bind.
  { apply only_for_return. intros v _. unfold probe_env_var.
    destruct (environ w !! v) as [val|]; [|apply only_ret].
    destruct (negb (truthy val)); [apply only_ret|].
    apply only_bind; [by apply only_perform|]. intros [|] _; [|apply only_ret].
    apply only_bind; [by apply only_perform|]. intros [|] _; [|apply only_ret].
    apply only_for_return. intros c _.
    apply only_bind; [by apply only_perform|]. intros; apply only_ret. }
  intros [s|] _; [apply only_ret|]. apply only_bind.
  { unfold search_path_stage. apply only_bind; [by apply only_perform|].
    intros a _. destruct (truthy_opt a); [apply only_ret|by apply only_perform]. }
  intros which_path _. destruct (truthy_opt which_path); [apply only_ret|].
  unfold common_stage. apply only_bind.
  { unfold common_locations.
    repeat (destruct (str_eq _ _); [try apply only_ret|]); [|apply only_ret].
    apply only_bind; [|intros; apply only_ret].
    unfold Path_home. apply only_bind; [by apply only_perform|intros; apply only_ret]. }
  intros common _. apply only_bind; [|intros; apply only_ret].
  apply only_for_return. intros p _. unfold probe_common.
  apply only_try_except; [|apply only_ret].
  apply only_bind; [by apply only_perform|intros; apply only_ret].
Qed.

Lemma find_java_only_candidates cubemx_path :
  only (java_access cubemx_path) (_find_java_bundled_with_cubemx w cubemx_path).
Proof.
  unfold _find_java_bundled_with_cubemx.
  destruct (negb (truthy cubemx_path)); [apply only_ret|].
  apply only_bind; [|intros; apply only_ret].
  apply only_for_return. intros c Hin. unfold probe_java.
  apply only_try_except; [|apply only_ret]. apply only_bind.
  { apply only_perform. exists c. split; [done|by left]. }
  intros [|] He; [|apply only_ret].
  apply only_bind; [|intros; apply only_ret].
  apply only_perform. exists c. split; [done|]. right. split; [done|].
  unfold exists_, perform, result in He. exact He.
Qed.

Lemma find_java_no_read cubemx_path :
  only no_read (_find_java_bundled_with_cubemx w cubemx_path).
Proof.
  eapply only_weaken; [|apply find_java_only_candidates].
  intros ev (c & _ & [->|[-> _]]); exact I.
Qed.

Lemma config_default_no_read : only no_read (config_default w).
Proof.
  unfold config_default. apply only_bind.
  { unfold _detected_cubemx. apply only_bind; [apply find_cubemx_no_read|].
    intros found _. destruct (negb (truthy found)); [|apply only_ret].
    repeat (destruct (str_eq _ _); [try apply only_ret|]); [|apply only_ret].
    apply only_bind; [|intros; apply only_ret].
    unfold Path_home. apply only_bind; [by apply only_perform|intros; apply only_ret]. }
  intros cubemx _. apply only_bind; [|intros; apply only_ret].
  unfold _detected_java. apply only_bind; [apply find_java_no_read|].
  intros found _. destruct (negb (truthy found)); apply only_ret.
Qed.

Lemma ci_override_lockfile_read cfg : only lockfile_read (ci_override w cfg).
Proof.
  unfold ci_override. destruct (CI_ENV_VARIABLE w) as [marker|] eqn:Hci;
    [|apply only_ret].
  apply only_bind.
  { unfold Path_of_environ. destruct (environ w !! _); [apply only_ret|apply only_raise]. }
  intros cache _. apply only_bind.
  { unfold patch_mixin, TEST_CASE.
    destruct (environ w !! "STM32PIO_TEST_CASE") as [test_case|] eqn:Hcase;
      [|apply only_ret].
    apply only_bind; [apply only_perform; by intros p|].
    intros [|] He; [|apply only_ret].
    apply only_bind; [|intros; apply only_ret].
    apply only_perform. intros p [= <-]. rewrite Hci. split; [by eexists|].
    exists test_case. split; [done|]. split; [done|].
    unfold exists_, perform, result in He. exact He. }
  intros mixin _. apply only_bind; [|intros; apply only_ret].
  unfold append_patch. destruct (_ !! _) as [[s|b]|];
    [apply only_ret|apply only_raise|apply only_raise].
Qed.

End Touches.

(** X10.  The only file whose content the module ever reads is the lock
    file of the test case, under continuous integration and after it was
    seen to exist.  Detection reads no content: in particular outside
    continuous integration loading the module reads no file. *)
Theorem settings_reads_only_lockfile `{F : PathFlavour} (w : World) (p : string) :
  EReadText p ∈ trace (settings w) →
  is_Some (CI_ENV_VARIABLE w)
  ∧ ∃ test_case,
      environ w !! "STM32PIO_TEST_CASE" = Some test_case
      ∧ p = str (platformio_ini_lockfile w test_case)
      ∧ exists_at w p = Ret true.
Proof.
  intros Hin.
  assert (only (lockfile_read w) (settings w)) as Honly.
  { unfold settings. apply only_bind.
    - eapply only_weaken; [|apply config_default_no_read].
      intros ev Hev q ->. destruct Hev.
    - intros cfg _. apply ci_override_lockfile_read. }
  unfold only in Honly. rewrite Forall_forall in Honly.
  by apply (Honly _ Hin p).
Qed.

Lemma settings_reads_only_lockfile_witness :
  EReadText fixture_lockfile ∈ trace (settings host_ci_fixture)
  ∧ is_Some (CI_ENV_VARIABLE host_ci_fixture)
  ∧ exists_at host_ci_fixture fixture_lockfile = Ret true.
Proof.
  assert (EReadText fixture_lockfile ∈ trace (settings host_ci_fixture)) as Hin
    by (apply (bool_decide_unpack _); vm_compute; exact I).
  split; [exact Hin|].
  destruct (settings_reads_only_lockfile host_ci_fixture fixture_lockfile Hin)
    as (Hci & test_case & _ & _ & He).
  split; [exact Hci | exact He].
Defined.

(** X11.  The runtime locator touches nothing but its three candidates: it
    looks whether a candidate exists and tests the execute permission of
    one only after it was seen to exist. *)
Theorem find_java_touches_candidates `{F : PathFlavour} (w : World)
    (cubemx_path : string) (ev : event) :
  ev ∈ trace (_find_java_bundled_with_cubemx w cubemx_path) →
  ∃ c, c ∈ java_candidates w cubemx_path
       ∧ (ev = EExists (str c)
          ∨ (ev = EAccess (str c) ∧ exists_at w (str c) = Ret true)).
Proof.
  intros Hin. pose proof (find_java_only_candidates w cubemx_path) as Honly.
  unfold only in Honly. rewrite Forall_forall in Honly. by apply Honly.
Qed.

Lemma find_java_touches_candidates_witness :
  trace (_find_java_bundled_with_cubemx host_c9 "/opt/st/cubemx/STM32CubeMX") =
    [ EExists "/opt/st/cubemx/jre/bin/java";
      EExists "/opt/st/jre/bin/java"; EAccess "/opt/st/jre/bin/java" ]
  ∧ exists_at host_c9 "/opt/st/jre/bin/java" = Ret true.
Proof.
  split; [reflexivity|].
  destruct (find_java_touches_candidates host_c9 "/opt/st/cubemx/STM32CubeMX"
              (EAccess "/opt/st/jre/bin/java")) as (c & _ & [Hc|[Hc He]]).
  - apply (bool_decide_unpack _). vm_compute. exact I.
  - discriminate Hc.
  - injection Hc as Hc. rewrite Hc. exact He.
Defined.

(** ** The candidates of the runtime *)

(** X12.  Except on Windows the third candidate of the runtime locator is
    the first one again ([jre/bin/java] in the directory of the
    generator): nothing particular to an application bundle is looked at,
    and the result is decided by the first two candidates. *)
Theorem find_java_third_candidate `{F : PathFlavour} (w : World)
    (cubemx_path : string) :
  my_os w ≠ "Windows" →
  cubemx_path ≠ "" →
  ∃ c1 c2,
    java_candidates w cubemx_path = [c1; c2; c1]
    ∧ c1 = parent (Path cubemx_path) // "jre" // "bin" // "java"
    ∧ c2 = parent (parent (Path cubemx_path)) // "jre" // "bin" // "java"
    ∧ result (_find_java_bundled_with_cubemx w cubemx_path) =
        Ret (default "" (str <$> List.find (λ c, usable w (str c)) [c1; c2])).
Proof.
  intros Hos Hne. eexists _, _. rewrite (find_java_result w cubemx_path Hne).
  unfold java_candidates, str_eq.
  destruct (String.eqb_spec (my_os w) "Windows") as [|_]; [done|].
  split; [reflexivity|]. split; [reflexivity|]. split; [reflexivity|].
  simpl. by repeat destruct (usable w _).
Qed.

Lemma find_java_third_candidate_witness :
  ∃ c1 c2,
    java_candidates host_c9 "/opt/st/cubemx/STM32CubeMX" = [c1; c2; c1]
    ∧ str c1 = "/opt/st/cubemx/jre/bin/java"
    ∧ str c2 = "/opt/st/jre/bin/java".
Proof.
  destruct (find_java_third_candidate host_c9 "/opt/st/cubemx/STM32CubeMX")
    as (c1 & c2 & Hc & -> & -> & _); [discriminate|discriminate|].
  eexists _, _. split; [exact Hc|]. split; reflexivity.
Defined.

(** ** Variables that are set to nothing *)

Section EmptyVariable.

Context `{F : PathFlavour}.
Variable w : World.

Lemma for_return_ext {A B} (body1 body2 : A → M (option B)) (xs : list A) :
  (∀ x, body1 x = body2 x) → for_return xs body1 = for_return xs body2.
Proof.
  intros Hbody. induction xs as [|x xs IH]; [done|].
  by rewrite !for_return_cons, Hbody, IH.
Qed.

Lemma probe_env_var_unset_empty v u :
  environ w !! v = Some "" →
  probe_env_var (Hosts.unset v w) u = probe_env_var w u.
Proof.
  intros Hv. destruct (decide (u = v)) as [->|Hne].
  - rewrite probe_env_var_unset_same. unfold probe_env_var. by rewrite Hv.
  - by apply probe_env_var_unset_other.
Qed.

Lemma environ_get_unset_empty v u :
  environ w !! v = Some "" →
  environ_get (Hosts.unset v w) u "" = environ_get w u "".
Proof.
  intros Hv. unfold environ_get. simpl. destruct (decide (u = v)) as [->|Hne].
  - by rewrite lookup_delete_eq, Hv.
  - by rewrite lookup_delete_ne.
Qed.

Lemma find_cubemx_unset_empty v :
  environ w !! v = Some "" →
  _find_cubemx_executable (Hosts.unset v w) = _find_cubemx_executable w.
Proof.
  intros Hv. unfold _find_cubemx_executable.
  rewrite (for_return_ext (probe_env_var (Hosts.unset v w)) (probe_env_var w))
    by (intros u; by apply probe_env_var_unset_empty).
  f_equal. unfold common_stage, common_locations. simpl.
  by rewrite (environ_get_unset_empty v "LOCALAPPDATA" Hv).
Qed.

End EmptyVariable.

(** X13.  For the detection, one of the variables that the locator reads
    itself (the six candidate variables and [LOCALAPPDATA]) set to the
    empty string is that variable not set.  The iteration of a candidate
    variable set to the empty string looks at nothing and gives no result;
    the conventional locations are the same paths as with the variable
    removed; and the locator and [config_default] make the same accesses
    with the same outcome on the host with that variable removed. *)
Theorem config_default_empty_variable `{F : PathFlavour} (w : World) (v : string) :
  v ∈ env_vars ∨ v = "LOCALAPPDATA" →
  environ w !! v = Some "" →
  (v ∈ env_vars → probe_env_var w v = ret None)
  ∧ common_locations (Hosts.unset v w) = common_locations w
  ∧ _find_cubemx_executable (Hosts.unset v w) = _find_cubemx_executable w
  ∧ config_default (Hosts.unset v w) = config_default w.
Proof.
  intros _ Hv. pose proof (find_cubemx_unset_empty w v Hv) as Hfind.
  split; [intros _; unfold probe_env_var; by rewrite Hv|].
  split.
  { unfold common_locations. simpl.
    by rewrite (environ_get_unset_empty w v "LOCALAPPDATA" Hv). }
  split; [done|]. unfold config_default, _detected_cubemx. by rewrite Hfind.
Qed.

Lemma config_default_empty_variable_witness :
  probe_env_var host_hostile "STM32CUBEMX_HOME" = ret None
  ∧ config_default (Hosts.unset "STM32CUBEMX_HOME" host_hostile)
    = config_default host_hostile.
Proof.
  destruct (config_default_empty_variable host_hostile "STM32CUBEMX_HOME")
    as (Hprobe & _ & _ & Hconfig).
  - left. by apply (bool_decide_unpack _).
  - reflexivity.
  - split; [apply Hprobe; by apply (bool_decide_unpack _)|exact Hconfig].
Defined.

(** ** Printed POSIX paths *)

Module PosixFacts.

(** [c not in s] *)
Fixpoint lacks (c : ascii) (s : string) : bool :=
  match s with
  | "" => true
  | String a s' => negb (Ascii.eqb a c) && lacks c s'
  end.

(** A component as [parse_parts] leaves it. *)
Definition component (x : string) : Prop :=
  Py.kept x = true ∧ lacks "/" x = true.

(** A path as [parse_parts] builds it. *)
Definition wf (p : Posix.t) : Prop :=
  (Posix.root p = "" ∨ Posix.root p = "/" ∨ Posix.root p = "//")
  ∧ Forall component (Posix.parts p).

Lemma split_nonempty c s : Py.split c s ≠ [].
Proof.
  destruct s as [|a s]; [done|]. simpl.
  destruct (Ascii.eqb a c); [done|]. by destruct (Py.split c s).
Qed.

Lemma split_lacks c s : Forall (λ x, lacks c x = true) (Py.split c s).
Proof.
  induction s as [|a s IH]; [by repeat constructor|]. simpl.
  destruct (Ascii.eqb a c) eqn:Ha; [by constructor|].
  destruct (Py.split c s) as [|x xs]; [by repeat constructor; simpl; rewrite Ha|].
  inversion IH as [|? ? Hx Hxs]; subst. constructor; [|done].
  simpl. by rewrite Ha, Hx.
Qed.

Lemma split_lacking c x : lacks c x = true → Py.split c x = [x].
Proof.
  induction x as [|a x IH]; [done|]. simpl.
  destruct (Ascii.eqb a c); [done|]. simpl. intros Hx. by rewrite (IH Hx).
Qed.

Lemma split_app c x rest :
  lacks c x = true →
  Py.split c (x +:+ String c rest) = x :: Py.split c rest.
Proof.
  induction x as [|a x IH].
  - intros _. change ("" +:+ String c rest) with (String c rest). simpl.
    by rewrite Ascii.eqb_refl.
  - simpl lacks. destruct (Ascii.eqb a c) eqn:Ha; [done|]. simpl. intros Hx.
    change (String a x +:+ String c rest) with (String a (x +:+ String c rest)).
    simpl. by rewrite Ha, (IH Hx).
Qed.

Lemma split_join c (xs : list string) :
  xs ≠ [] →
  Forall (λ x, lacks c x = true) xs →
  Py.split c (Py.join (String c "") xs) = xs.
Proof.
  induction xs as [|x xs IH]; [done|]. intros _ Hxs.
  inversion Hxs as [|? ? Hx Hxs']; subst.
  destruct xs as [|y ys]; [by apply split_lacking|].
  change (Py.join (String c "") (x :: y :: ys))
    with (x +:+ String c (Py.join (String c "") (y :: ys))).
  rewrite (split_app c x _ Hx), IH; done.
Qed.

Lemma filter_components (xs : list string) :
  Forall component xs → List.filter Py.kept xs = xs.
Proof.
  induction 1 as [|x xs [Hx _] _ IH]; [done|]. simpl. by rewrite Hx, IH.
Qed.

(** Reading back the components of a printed path. *)
Lemma components_round_trip (xs : list string) :
  Forall component xs →
  List.filter Py.kept (Py.split "/" (Py.join "/" xs)) = xs.
Proof.
  intros Hxs. destruct xs as [|x xs]; [done|].
  rewrite (split_join "/"); [by apply filter_components|done|].
  eapply Forall_impl; [exact Hxs|]. by intros y [_ Hy].
Qed.

Lemma parse_components s rel root :
  Posix.splitroot s = (root, rel) →
  Forall component (List.filter Py.kept (Py.split "/" rel)).
Proof.
  intros _. apply Forall_forall. intros x Hx.
  apply list_elem_of_In, filter_In in Hx as [Hin Hkept]. split; [done|].
  pose proof (split_lacks "/" rel) as Hl. rewrite Forall_forall in Hl.
  by apply Hl, list_elem_of_In.
Qed.

Lemma parse_wf s : wf (Posix.parse s).
Proof.
  unfold Posix.parse. destruct (Posix.splitroot s) as [root rel] eqn:Hs.
  split; [|by apply (parse_components s rel root)]. simpl.
  unfold Posix.splitroot in Hs. destruct s as [|a s]; [left; congruence|].
  destruct a as [[] [] [] [] [] [] [] []]; try (left; congruence).
  destruct (Nat.eqb _ _); injection Hs as <- _; tauto.
Qed.

(** The joined components do not begin with a slash. *)
Definition begins_with_slash (s : string) : bool :=
  match s with String a _ => Ascii.eqb a "/" | "" => false end.

Lemma join_begins (xs : list string) :
  Forall component xs → begins_with_slash (Py.join "/" xs) = false.
Proof.
  intros Hxs. destruct xs as [|x xs]; [done|].
  inversion Hxs as [|? ? [Hkept Hlacks] _]; subst.
  destruct x as [|a x]; [done|]. simpl in Hlacks.
  destruct (Ascii.eqb a "/") eqn:Ha; [done|]. by destruct xs.
Qed.

Lemma splitroot_relative s :
  begins_with_slash s = false → Posix.splitroot s = ("", s).
Proof.
  destruct s as [|a s]; [done|]. simpl.
  by destruct a as [[] [] [] [] [] [] [] []].
Qed.

Lemma lstrip_relative s :
  begins_with_slash s = false → Py.lstrip "/" s = s.
Proof. destruct s as [|a s]; [done|]. simpl. by intros ->. Qed.

Lemma splitroot_one_slash s :
  begins_with_slash s = false → Posix.splitroot (String "/" s) = ("/", s).
Proof.
  intros Hs. unfold Posix.splitroot.
  change (Py.lstrip "/" (String "/" s)) with (Py.lstrip "/" s).
  rewrite (lstrip_relative s Hs). simpl String.length.
  replace (S (String.length s) - String.length s) with 1 by lia. done.
Qed.

Lemma splitroot_two_slashes s :
  begins_with_slash s = false →
  Posix.splitroot (String "/" (String "/" s)) = ("//", s).
Proof.
  intros Hs. unfold Posix.splitroot.
  change (Py.lstrip "/" (String "/" (String "/" s))) with (Py.lstrip "/" s).
  rewrite (lstrip_relative s Hs). simpl String.length.
  replace (S (S (String.length s)) - String.length s) with 2 by lia. done.
Qed.

(** Printing a path and reading the text gives the path back. *)
Lemma parse_to_str (p : Posix.t) : wf p → Posix.parse (Posix.to_str p) = p.
Proof.
  destruct p as [root parts]. intros [Hroot Hparts]. simpl in Hroot, Hparts.
  pose proof (join_begins parts Hparts) as Hbegin.
  pose proof (components_round_trip parts Hparts) as Hround.
  unfold Posix.to_str, Posix.format, Posix.parse. simpl Posix.root. simpl Posix.parts.
  destruct Hroot as [->|[->| ->]].
  - change ("" +:+ Py.join "/" parts) with (Py.join "/" parts).
    destruct (Py.join "/" parts) as [|a j] eqn:Hj.
    + simpl. destruct parts as [|x xs]; [done|].
      inversion Hparts as [|? ? [Hkept _] _]; subst.
      destruct x as [|b x]; [done|]. by destruct xs.
    + cbn [truthy]. rewrite (splitroot_relative _ Hbegin). by rewrite Hround.
  - change ("/" +:+ Py.join "/" parts) with (String "/" (Py.join "/" parts)).
    cbn [truthy]. rewrite (splitroot_one_slash _ Hbegin). by rewrite Hround.
  - change ("//" +:+ Py.join "/" parts)
      with (String "/" (String "/" (Py.join "/" parts))).
    cbn [truthy]. rewrite (splitroot_two_slashes _ Hbegin). by rewrite Hround.
Qed.

Lemma join_wf (p : Posix.t) (s : string) : wf p → wf (Posix.join p s).
Proof.
  intros [Hroot Hparts]. unfold Posix.join.
  destruct (parse_wf s) as [Hroot' Hparts'].
  destruct (truthy _); [done|]. split; [done|]. simpl. by apply Forall_app.
Qed.

(** The text of a path that the module has built prints as itself. *)
Definition printed (s : string) : Prop :=
  ∃ p : Posix.t, wf p ∧ s = Posix.to_str p.

Lemma printed_stable s : printed s → Posix.to_str (Posix.parse s) = s.
Proof. intros (p & Hp & ->). by rewrite parse_to_str. Qed.

End PosixFacts.

Section Printed.

Variable w : World.

Lemma wf_Path (s : string) : PosixFacts.wf (Path (PathFlavour:=posix) s).
Proof. apply PosixFacts.parse_wf. Qed.

Lemma wf_joinpath (p : path) (s : string) :
  PosixFacts.wf p → PosixFacts.wf (joinpath (PathFlavour:=posix) p s).
Proof. apply PosixFacts.join_wf. Qed.

Create HintDb printed.
#[local] Hint Resolve wf_Path wf_joinpath PosixFacts.parse_wf PosixFacts.join_wf : printed.

Lemma probe_env_var_printed v s :
  result (probe_env_var (F:=posix) w v) = Ret (Some s) → PosixFacts.printed s.
Proof.
  unfold probe_env_var. destruct (environ w !! v) as [val|]; [|done].
  destruct (negb (truthy val)); [done|].
  rewrite result_bind. unfold exists_ at 1. cbn [result perform snd].
  destruct (exists_at w _) as [[|]|e]; [|done|done].
  rewrite result_bind. unfold is_dir. cbn [result perform snd].
  destruct (is_dir_at w _) as [[|]|e]; [| |done].
  - intros Hr. apply for_return_some_inv in Hr as (c & Hin & Hc).
    rewrite result_bind in Hc. unfold exists_ in Hc. cbn [result perform snd] in Hc.
    destruct (exists_at w _) as [[|]|e]; [|done|done].
    injection Hc as <-. exists c. split; [|done].
    unfold candidates_in in Hin.
    repeat (apply elem_of_cons in Hin as [->|Hin]; [auto 10 with printed|]).
    by apply elem_of_nil in Hin.
  - intros [= <-]. eexists. split; [|done]. auto with printed.
Qed.

Lemma common_locations_wf common :
  result (common_locations (F:=posix) w) = Ret common →
  Forall PosixFacts.wf common.
Proof.
  unfold common_locations.
  destruct (str_eq (my_os w) "Windows").
  { intros [= <-]. repeat (apply List.Forall_cons; [auto 10 with printed|]); apply List.Forall_nil. }
  destruct (str_eq (my_os w) "Darwin").
  { intros [= <-]. repeat (apply List.Forall_cons; [auto 10 with printed|]); apply List.Forall_nil. }
  destruct (str_eq (my_os w) "Linux"); [|by intros [= <-]].
  assert (result (Path_home (F:=posix) w) =
          match home w with Ret h => Ret (Path h) | Raise e => Raise e end) as Hhome
    by (unfold Path_home; rewrite result_bind; by destruct (home w)).
  rewrite result_bind, Hhome. destruct (home w) as [h|e]; [|done].
  intros [= <-].
  repeat (apply List.Forall_cons; [auto 10 with printed|]); apply List.Forall_nil.
Qed.

Lemma search_path_stage_result :
  result (search_path_stage w) =
    Ret (if truthy_opt (which w (exec_name w)) then which w (exec_name w)
         else which w "STM32CubeMX").
Proof.
  unfold search_path_stage. fold (exec_name w). rewrite result_bind. simpl.
  by destruct (truthy_opt _).
Qed.

End Printed.

(** X14.  On a host with POSIX paths, whatever the locator returns is the
    empty string, or what [shutil.which] gave, or a path in the form in
    which [pathlib] prints it: read as a path again it prints as itself,
    so that a candidate variable set to the returned text names the same
    path and gives the same text back. *)
Theorem find_cubemx_printed_path (w : World) (s : string) :
  result (_find_cubemx_executable (F:=posix) w) = Ret s →
  s = ""
  ∨ which w (exec_name w) = Some s
  ∨ which w "STM32CubeMX" = Some s
  ∨ str (Path (PathFlavour:=posix) s) = s.
Proof.
  unfold _find_cubemx_executable. rewrite result_bind.
  destruct (result (for_return env_vars _)) as [[s'|]|e] eqn:Henv; [| |done].
  - intros [= ->]. apply for_return_some_inv in Henv as (v & _ & Hv).
    do 3 right. by apply PosixFacts.printed_stable, (probe_env_var_printed w v).
  - rewrite result_bind, search_path_stage_result.
    destruct (truthy_opt (which w (exec_name w))) eqn:Hfirst.
    + rewrite Hfirst. destruct (which w (exec_name w)) as [p|]; [|done].
      intros [= <-]. by right; left.
    + destruct (truthy_opt (which w "STM32CubeMX")) eqn:Hsecond.
      * destruct (which w "STM32CubeMX") as [p|]; [|done].
        intros [= <-]. by right; right; left.
      * destruct (result (common_locations w)) as [common|e] eqn:Hcommon;
          [|by unfold common_stage; rewrite result_bind, Hcommon].
        pose proof (common_locations_wf w common Hcommon) as Hwf.
        rewrite (common_stage_result w common Hcommon).
        destruct (List.find _ _) as [c|] eqn:Hfind; simpl; intros [= <-]; [|by left].
        do 3 right. apply PosixFacts.printed_stable. exists c. split; [|done].
        apply find_some in Hfind as [Hin _]. rewrite Forall_forall in Hwf.
        by apply Hwf, list_elem_of_In.
Qed.

(** A variable whose value is not in printed form. *)
Definition host_untidy : World :=
  Hosts.quiet "Linux" {[ "STM32CUBEMX" := "/opt//st/./cubemx/" ]}
    [ "/opt/st/cubemx/STM32CubeMX" ] [ "/opt/st/cubemx" ] "".

Lemma find_cubemx_printed_path_witness :
  result (_find_cubemx_executable host_untidy) = Ret "/opt/st/cubemx/STM32CubeMX"
  ∧ str (Path "/opt/st/cubemx/STM32CubeMX") = "/opt/st/cubemx/STM32CubeMX".
Proof.
  assert (result (_find_cubemx_executable host_untidy)
          = Ret "/opt/st/cubemx/STM32CubeMX") as Hr by reflexivity.
  split; [exact Hr|].
  destruct (find_cubemx_printed_path host_untidy _ Hr) as [H|[H|[H|H]]];
    [discriminate H|discriminate H|discriminate H|exact H].
Defined.

(** ** Variables that name nothing *)

(** A variable left over from a removed installation. *)
Definition host_stale : World :=
  Hosts.quiet "Linux"
    {[ "STM32CUBEMX_HOME" := "/opt/st/old/STM32CubeMX";
       "STM32CUBEMX_PATH" := "/opt/st/cubemx/STM32CubeMX" ]}
    [ "/opt/st/cubemx/STM32CubeMX" ] [ "/opt/st/cubemx" ] "".

(** X15.  A candidate variable that names a path that does not exist is
    passed over after the one look at that path: the locator goes on as if
    the variable were not set. *)
Theorem find_cubemx_env_missing_path `{F : PathFlavour} (w : World)
    (v val : string) :
  v ∈ env_vars →
  environ w !! v = Some val →
  val ≠ "" →
  exists_at w (str (Path val)) = Ret false →
  probe_env_var w v = ([EExists (str (Path val))], Ret None)
  ∧ result (_find_cubemx_executable w) =
    result (_find_cubemx_executable (Hosts.unset v w)).
Proof.
  intros Hin Hv Hval He.
  assert (probe_env_var w v = ([EExists (str (Path val))], Ret None)) as Hprobe.
  { unfold probe_env_var. rewrite Hv. destruct val as [|a val]; [done|].
    simpl negb. cbv iota. unfold exists_, perform, bind. by rewrite He. }
  split; [done|].
  destruct (later_stages_unset w v Hin) as [Hsearch Hcommon].
  unfold _find_cubemx_executable. rewrite !result_bind.
  rewrite (for_return_result_ext (probe_env_var w)
             (probe_env_var (Hosts.unset v w))).
  - destruct (result (for_return env_vars _)) as [[s|]|e]; [done| |done].
    by rewrite Hsearch, Hcommon.
  - apply Forall_forall. intros u _. destruct (decide (u = v)) as [->|Hne].
    + by rewrite Hprobe, probe_env_var_unset_same.
    + by rewrite probe_env_var_unset_other.
Qed.

Lemma find_cubemx_env_missing_path_witness :
  probe_env_var host_stale "STM32CUBEMX_HOME"
    = ([EExists "/opt/st/old/STM32CubeMX"], Ret None)
  ∧ result (_find_cubemx_executable host_stale) =
    result (_find_cubemx_executable (Hosts.unset "STM32CUBEMX_HOME" host_stale)).
Proof.
  destruct (find_cubemx_env_missing_path host_stale
              "STM32CUBEMX_HOME" "/opt/st/old/STM32CubeMX") as [Hprobe Hr].
  - by apply (bool_decide_unpack _).
  - reflexivity.
  - discriminate.
  - reflexivity.
  - split; [exact Hprobe | exact Hr].
Defined.

(** ** Continuous-integration variables that are set to nothing *)

(** An agent whose marker and cache folder are set to the empty string. *)
Definition host_ci_empty : World :=
  Hosts.quiet "Linux"
    {[ "PIPELINE_WORKSPACE" := ""; "STM32PIO_CUBEMX_CACHE_FOLDER" := "" ]} [] [] "".

(** X16.  Unlike the detection, the continuous-integration block takes a
    variable that is set to the empty string as set: an empty marker runs
    the block, and an empty cache folder gives the bare file name
    [STM32CubeMX.exe] as [cubemx_cmd], a path relative to the current
    directory (stated for POSIX paths). *)
Theorem ci_override_empty_values (w : World) (cfg : config) :
  environ w !! "PIPELINE_WORKSPACE" = Some "" →
  environ w !! "STM32PIO_CUBEMX_CACHE_FOLDER" = Some "" →
  (∀ cfg', result (ci_override (F:=posix) w cfg) = Ret cfg' →
           app cfg' !! "cubemx_cmd" = Some "STM32CubeMX.exe"
           ∧ app cfg' !! "java_cmd" = Some "java")
  ∧ (∀ before,
       environ w !! "STM32PIO_TEST_CASE" = None →
       project cfg !! "platformio_ini_patch_content" = Some (VStr before) →
       ∃ cfg', result (ci_override (F:=posix) w cfg) = Ret cfg').
Proof.
  intros Hci Hcache. split.
  - intros cfg' Hr.
    destruct (ci_override_inv (F:=posix) w "" cfg cfg' Hci Hr)
      as (cache & mixin & before & Hcache' & _ & _ & ->).
    rewrite Hcache in Hcache'. injection Hcache' as <-. cbn [app].
    destruct (ci_app_lookup (F:=posix) (Path "")) as (_ & Hc & Hj).
    by rewrite Hc, Hj.
  - intros before Hcase Hbefore. eexists.
    apply (ci_override_result (F:=posix) w "" "" "" before); [done|done| |done].
    by rewrite patch_mixin_no_case.
Qed.

Lemma ci_override_empty_values_witness :
  ∃ cfg',
    result (ci_override host_ci_empty some_config) = Ret cfg'
    ∧ app cfg' !! "cubemx_cmd" = Some "STM32CubeMX.exe".
Proof.
  destruct (ci_override_empty_values host_ci_empty some_config)
    as (Hposix & Hruns); [reflexivity|reflexivity|].
  destruct (Hruns platformio_ini_patch_content eq_refl eq_refl) as [cfg' Hcfg'].
  exists cfg'. split; [exact Hcfg'|]. by apply Hposix.
Defined.

(** ** The tables of user input *)

(** X17.  No word of [yes_options] is a word of [no_options] or of
    [none_options]; the words that [none_options] and [no_options] share
    are [no] and [0]; and every word is in lower case, as the use with
    [.lower()] requires. *)
Theorem option_tables :
  Forall (λ word, (word ∉ no_options) ∧ (word ∉ none_options)) yes_options
  ∧ List.filter (λ word, bool_decide (word ∈ no_options)) none_options = ["no"; "0"]
  ∧ Forall (λ word, Py.lower word = word) (none_options ++ no_options ++ yes_options).
Proof.
  split; [|split].
  - repeat constructor; by apply (bool_decide_unpack _).
  - reflexivity.
  - repeat constructor.
Qed.
